(** * kmud: entity base, session dispatcher and reader task

    A shallow embedding of the parts of kmud that the specification talks
    about:

    - [Fmt]: [fmt.Sprintf], which formats every line the session prints;
    - [Utils]: the line-input helpers of package [utils];
    - [Database]: the entity base (locks, commit on mutation) and the
      [Area] entity of package [database];
    - [Model]: the world and the event bus of package [model];
    - [Session]: [Session.Exec]: the reader goroutine with its 200ms
      throttle, over a logical clock, and the dispatcher: [processEvent],
      [getUserInput], [execMenu], the print helpers, the exit editor and
      the [/zone] command of [processCommand], and the main loop.

    - [UtilsTest]: the reader, the writer and the list comparison of the
      tests of package [utils];
    - [Commands]: further cases of [processCommand]: the quick exits,
      [colormode] and the name prompt of [npc].

    The theorems follow in [AreaSpec], [ReaderSpec], [SessionSpec],
    [ExitSpec] and [ZoneSpec], and then in [AreaMore], [UtilsTestSpec],
    [ReaderMore], [SessionMore], [ExitMore], [CommandSpec] and
    [EditorSpec].

    Go strings are byte strings and are modelled by [string]; pointers to
    entities are addresses into a heap that maps every address to an
    object; [int] and [time.Duration] values are integers in [Z]. *)

From Stdlib Require Import ZArith Lia Ascii String.
From stdpp Require Import base decidable countable gmap functions list strings pretty.

Open Scope string_scope.
Open Scope list_scope.

(** [bson.ObjectId] is a Go string type. *)
Module Bson.
Definition ObjectId : Type := string.
End Bson.

(** A value passed to [panic]: an [interface{}] in Go, a message here. *)
Definition PanicValue : Type := string.

(* ===================================================================== *)
(** ** Package fmt                                                        *)
(* ===================================================================== *)

(** [fmt.Sprintf], of the standard library, taken as it comes: the text
    it makes of a format and its operands. The session passes it every
    line it prints, as the format. *)
Module Fmt.

Class Ops : Type := {
  Sprintf : string -> list string -> string
}.

End Fmt.

(* ===================================================================== *)
(** ** Package utils                                                      *)
(* ===================================================================== *)

(** Only the tests of package [utils] are in the files at hand. What
    [Session] uses of it is an interface here ([Ops], [Menu]) or is
    modelled from the tests ([GetRawUserInput]). *)
Module Utils.

Inductive ColorMode : Type := ColorModeNone | ColorModeLight | ColorModeDark.

Inductive Color : Type :=
| ColorRed | ColorDarkRed | ColorGreen | ColorDarkGreen | ColorBlue
| ColorDarkBlue | ColorYellow | ColorDarkYellow | ColorMagenta
| ColorDarkMagenta | ColorCyan | ColorDarkCyan | ColorBlack | ColorWhite
| ColorGray.

(** What reading one line from the connection gives: the line without its
    terminator, or a failure of the read. *)
Inductive Read : Type :=
| Line (line : string)
| Failure (r : PanicValue).

(** A call that returns or panics. *)
Inductive Result (A : Type) : Type :=
| Ok (a : A)
| Panicked (r : PanicValue).
Arguments Ok {A} a.
Arguments Panicked {A} r.

(** Modelled from the spec: [GetRawUserInput], which is outside the files
    at hand. [Test_GetRawUserInput] fixes what it returns for the line it
    reads: the line as it is, and the empty string for [x] and [X]; a
    failure of the read is unrecoverable and is raised as a panic. *)
Definition GetRawUserInput (rd : Read) : Result string :=
  match rd with
  | Failure r => Panicked r
  | Line line =>
      if (String.eqb line "x" || String.eqb line "X")%bool then Ok "" else Ok line
  end.

(** The string of one tab character, [\t] in Go. *)
Definition tab : string := String (Ascii.ascii_of_nat 9) EmptyString.

(** A menu, as [execMenu] sees it. *)
Record Menu : Type := {
  GetPrompt : string;
  HasAction : string -> bool;
  GetData : string -> Bson.ObjectId
}.

(** The functions of package [utils] that are outside the files at hand
    and are taken as they come: [CleanLine] is what [GetUserInput] returns
    for the line it reads (the tests show it trimmed and in lower case, and
    empty for [x]). *)
Class Ops : Type := {
  CleanLine : string -> string;
  Argify : string -> string * list string;
  Colorize : ColorMode -> Color -> string -> string;
  NewMenu : string -> Menu;
  AddAction : string -> string -> Menu -> Menu
}.

Definition GetUserInput `{Ops} (rd : Read) : Result string :=
  match rd with
  | Failure r => Panicked r
  | Line line => Ok (CleanLine line)
  end.

End Utils.

(* ===================================================================== *)
(** ** Package database                                                   *)
(* ===================================================================== *)

Module Database.

Definition ObjectId : Type := Bson.ObjectId.

(** Modelled from the spec: the [ObjectType] tag of an entity; only
    [AreaType] is named in the files at hand, the other tags are the
    concrete entities the spec lists. *)
Inductive ObjectType : Type :=
| AreaType | CharType | RoomType | UserType | ZoneType | ItemType.

(** Modelled from the spec: the [DbObject] base that every entity embeds.
    It carries the identity; its reader/writer lock is observed through the
    lock operations below, which are recorded in the effect log. *)
Record DbObject : Type := { Id : ObjectId }.

(** What a method of an entity does to the world outside the entity value
    itself: it takes and releases the entity's lock and commits the entity
    to the backing store. The entity is named by its id. *)
Inductive Effect : Type :=
| EReadLock (id : ObjectId)
| EReadUnlock (id : ObjectId)
| EWriteLock (id : ObjectId)
| EWriteUnlock (id : ObjectId)
| EObjectModified (ty : ObjectType) (id : ObjectId).

Definition is_commit (e : Effect) : bool :=
  match e with EObjectModified _ _ => true | _ => false end.

(** The number of commits in a log. *)
Definition commits (log : list Effect) : nat :=
  length (filter (fun e => is_commit e = true) log).

(** What the mutators leave in a log: the write locks and the commits;
    the read locks of the accessors are left out. *)
Definition is_write (e : Effect) : bool :=
  match e with
  | EWriteLock _ | EWriteUnlock _ | EObjectModified _ _ => true
  | EReadLock _ | EReadUnlock _ => false
  end.

Definition writes (log : list Effect) : list Effect :=
  filter (fun e => is_write e = true) log.

(** The locks as a log leaves them. A reader/writer lock is free, held by
    a number of readers, or held by one writer; the locks that are not free
    are kept by the id of their entity. *)
Inductive Held : Type :=
| HeldRead (n : nat)
| HeldWrite.

(** One effect on the locks held. A lock is taken only when the other
    side does not hold it (the call would block otherwise), it is released
    only by a holder, and a commit needs the write lock of its entity. *)
Definition lockStep (held : gmap string Held) (e : Effect) : option (gmap string Held) :=
  match e with
  | EReadLock id =>
      match held !! id with
      | None => Some (<[id := HeldRead 1]> held)
      | Some (HeldRead n) => Some (<[id := HeldRead (S n)]> held)
      | Some HeldWrite => None
      end
  | EReadUnlock id =>
      match held !! id with
      | Some (HeldRead 1) => Some (delete id held)
      | Some (HeldRead (S (S n))) => Some (<[id := HeldRead (S n)]> held)
      | _ => None
      end
  | EWriteLock id =>
      match held !! id with
      | None => Some (<[id := HeldWrite]> held)
      | Some _ => None
      end
  | EWriteUnlock id =>
      match held !! id with
      | Some HeldWrite => Some (delete id held)
      | _ => None
      end
  | EObjectModified _ id =>
      match held !! id with
      | Some HeldWrite => Some held
      | _ => None
      end
  end.

(** Replaying a log from the locks held: the locks held after it, if
    every effect of the log is possible in its turn. *)
Fixpoint replay (held : gmap string Held) (log : list Effect) : option (gmap string Held) :=
  match log with
  | [] => Some held
  | e :: log' =>
      match lockStep held e with
      | Some held' => replay held' log'
      | None => None
      end
  end.

(** An entity embeds a [DbObject] and knows its type tag. *)
Class Entity (E : Type) : Type := {
  dbObject : E -> DbObject;
  GetType : E -> ObjectType
}.

(** A method with receiver [*E]: it reads and updates the receiver and
    appends to the effect log. *)
Definition Method (E A : Type) : Type := E -> list Effect -> A * E * list Effect.

#[export] Instance Method_ret {E} : MRet (Method E) :=
  fun A (a : A) self log => (a, self, log).

#[export] Instance Method_bind {E} : MBind (Method E) :=
  fun A B (k : A -> Method E B) (m : Method E A) self log =>
    let '(a, self', log') := m self log in k a self' log'.

Definition this {E} : Method E E := fun self log => (self, self, log).

Definition assign {E} (self' : E) : Method E unit := fun _ log => (tt, self', log).

Definition emit {E} (e : Effect) : Method E unit :=
  fun self log => (tt, self, log ++ [e]).

Section EntityBase.
Context {E : Type} `{Entity E}.

Definition GetId (self : E) : ObjectId := Id (dbObject self).

Definition ReadLock : Method E unit := self ← this; emit (EReadLock (GetId self)).
Definition ReadUnlock : Method E unit := self ← this; emit (EReadUnlock (GetId self)).
Definition WriteLock : Method E unit := self ← this; emit (EWriteLock (GetId self)).
Definition WriteUnlock : Method E unit := self ← this; emit (EWriteUnlock (GetId self)).

(** Modelled from the spec: [objectModified], the synchronous "mark
    modified" step that commits the entity to the backing store. *)
Definition objectModified : Method E unit :=
  self ← this; emit (EObjectModified (GetType self) (GetId self)).

(** [self.ReadLock(); defer self.ReadUnlock(); return f(self)] *)
Definition reading {A} (f : E -> A) : Method E A :=
  ReadLock;; self ← this; ReadUnlock;; mret (f self).

(** [self.WriteLock(); defer self.WriteUnlock(); body] *)
Definition writing {A} (body : Method E A) : Method E A :=
  WriteLock;; a ← body; WriteUnlock;; mret a.

End EntityBase.

(** *** Area *)

Record Area : Type := {
  AreaDb : DbObject;
  Name : string;
  ZoneId : ObjectId
}.

#[export] Instance Area_Entity : Entity Area :=
  {| dbObject := AreaDb; GetType := fun _ => AreaType |}.

Definition Area_setName (name : string) (a : Area) : Area :=
  {| AreaDb := AreaDb a; Name := name; ZoneId := ZoneId a |}.

Definition GetName : Method Area string := reading Name.

Definition SetName (name : string) : Method Area unit :=
  writing (
    self ← this;
    if negb (String.eqb name (Name self)) then
      assign (Area_setName name self);;
      objectModified
    else mret tt).

Definition GetZoneId : Method Area ObjectId := reading ZoneId.

(** *** Directions and coordinates

    The ten directions are the ones [toggleExitMenu] lists, next to
    [DirectionNone]. *)

Inductive ExitDirection : Type :=
| DirectionNone
| DirectionNorth | DirectionNorthEast | DirectionEast | DirectionSouthEast
| DirectionSouth | DirectionSouthWest | DirectionWest | DirectionNorthWest
| DirectionUp | DirectionDown.

#[export] Instance ExitDirection_eq_dec : EqDecision ExitDirection.
Proof. solve_decision. Defined.

Definition direction_code (d : ExitDirection) : nat :=
  match d with
  | DirectionNone => 0
  | DirectionNorth => 1 | DirectionNorthEast => 2 | DirectionEast => 3
  | DirectionSouthEast => 4 | DirectionSouth => 5 | DirectionSouthWest => 6
  | DirectionWest => 7 | DirectionNorthWest => 8
  | DirectionUp => 9 | DirectionDown => 10
  end.

Definition direction_of_code (n : nat) : option ExitDirection :=
  match n with
  | 0 => Some DirectionNone
  | 1 => Some DirectionNorth | 2 => Some DirectionNorthEast | 3 => Some DirectionEast
  | 4 => Some DirectionSouthEast | 5 => Some DirectionSouth | 6 => Some DirectionSouthWest
  | 7 => Some DirectionWest | 8 => Some DirectionNorthWest
  | 9 => Some DirectionUp | 10 => Some DirectionDown
  | _ => None
  end.

#[export] Instance ExitDirection_countable : Countable ExitDirection.
Proof.
  refine (inj_countable direction_code direction_of_code _).
  intros []; reflexivity.
Defined.

Record Coordinate : Type := { X : Z; Y : Z; Z_ : Z }.

#[export] Instance Coordinate_eq_dec : EqDecision Coordinate.
Proof. solve_decision. Defined.

(** *** Room *)

(** Modelled from the spec: the [Room] entity. Its declaration is outside
    the files at hand; the fields are the ones [Session] reads and writes
    through methods, and the exits are the set of enabled directions. *)
Record Room : Type := {
  RoomDb : DbObject;
  RoomZoneId : ObjectId;
  Title : string;
  Description : string;
  Location : Coordinate;
  Exits : gset ExitDirection
}.

#[export] Instance Room_Entity : Entity Room :=
  {| dbObject := RoomDb; GetType := fun _ => RoomType |}.

Definition Room_setExits (exits : gset ExitDirection) (r : Room) : Room :=
  {| RoomDb := RoomDb r; RoomZoneId := RoomZoneId r; Title := Title r;
     Description := Description r; Location := Location r; Exits := exits |}.

Definition hasExit (r : Room) (dir : ExitDirection) : bool :=
  bool_decide (dir ∈ Exits r).

(** Modelled from the spec: the methods of [Room], which are outside the
    files at hand. They follow the entity contract of the spec, as [Area]'s
    do in the source: an accessor copies the value under the read lock, a
    mutator takes the write lock, compares, and commits only a real
    change. *)
Definition Room_GetId : Method Room ObjectId := reading GetId.

(** Modelled from the spec: [Room.HasExit], an accessor. *)
Definition HasExit (dir : ExitDirection) : Method Room bool :=
  reading (fun r => hasExit r dir).

(** Modelled from the spec: [Room.SetExitEnabled], a mutator. *)
Definition SetExitEnabled (dir : ExitDirection) (enabled : bool) : Method Room unit :=
  writing (
    self ← this;
    if negb (Bool.eqb enabled (hasExit self dir)) then
      assign (Room_setExits
                (if enabled then Exits self ∪ {[dir]} else Exits self ∖ {[dir]})
                self);;
      objectModified
    else mret tt).

Definition Room_setTitle (title : string) (r : Room) : Room :=
  {| RoomDb := RoomDb r; RoomZoneId := RoomZoneId r; Title := title;
     Description := Description r; Location := Location r; Exits := Exits r |}.

Definition Room_setDescription (description : string) (r : Room) : Room :=
  {| RoomDb := RoomDb r; RoomZoneId := RoomZoneId r; Title := Title r;
     Description := description; Location := Location r; Exits := Exits r |}.

(** Modelled from the spec: [Room.SetTitle], a mutator. *)
Definition SetTitle (title : string) : Method Room unit :=
  writing (
    self ← this;
    if negb (String.eqb title (Title self)) then
      assign (Room_setTitle title self);;
      objectModified
    else mret tt).

(** Modelled from the spec: [Room.SetDescription], a mutator. *)
Definition SetDescription (description : string) : Method Room unit :=
  writing (
    self ← this;
    if negb (String.eqb description (Description self)) then
      assign (Room_setDescription description self);;
      objectModified
    else mret tt).

(** [database.ReadMode] and [database.EditMode], the two ways
    [Room.ToString] renders a room. *)
Inductive PrintMode : Type := ReadMode | EditMode.

(** The direction functions of package [database] that are outside the
    files at hand, taken as they come. *)
Class Directions : Type := {
  StringToDirection : string -> ExitDirection;
  Opposite : ExitDirection -> ExitDirection;
  nextLocation : Room -> ExitDirection -> Coordinate
}.

(** Modelled from the spec: [Room.NextLocation], an accessor; the
    location it computes is the parameter [nextLocation]. *)
Definition NextLocation `{Directions} (dir : ExitDirection) : Method Room Coordinate :=
  reading (fun r => nextLocation r dir).

(** *** Zone *)

(** Modelled from the spec: the [Zone] entity, an entity with a name. Its
    declaration is outside the files at hand. *)
Record Zone : Type := {
  ZoneDb : DbObject;
  ZoneName : string
}.

#[export] Instance Zone_Entity : Entity Zone :=
  {| dbObject := ZoneDb; GetType := fun _ => ZoneType |}.

(** Modelled from the spec: the methods of [Zone], with the accessors and
    the mutator the spec's entity contract gives it (the shape of
    [Area.GetName] and [Area.SetName]). *)
Definition Zone_GetId : Method Zone ObjectId := reading GetId.

(** Modelled from the spec: [Zone.GetName], an accessor. *)
Definition Zone_GetName : Method Zone string := reading ZoneName.

(** Modelled from the spec: [Zone.SetName], a mutator. *)
Definition Zone_SetName (name : string) : Method Zone unit :=
  writing (
    self ← this;
    if negb (String.eqb name (ZoneName self)) then
      assign {| ZoneDb := ZoneDb self; ZoneName := name |};;
      objectModified
    else mret tt).

(** *** User *)

(** Modelled from the spec: the [User] entity, of which [Session] reads the
    colour mode. Its declaration is outside the files at hand. *)
Record User : Type := {
  UserDb : DbObject;
  ColorMode : Utils.ColorMode
}.

#[export] Instance User_Entity : Entity User :=
  {| dbObject := UserDb; GetType := fun _ => UserType |}.

(** Modelled from the spec: [User.GetColorMode], an accessor. *)
Definition GetColorMode : Method User Utils.ColorMode := reading ColorMode.

(** Running a method on an entity with an empty log. *)
Definition run {E A} (m : Method E A) (self : E) : A * E * list Effect := m self [].

Definition result {E A} (r : A * E * list Effect) : A := fst (fst r).
Definition after {E A} (r : A * E * list Effect) : E := snd (fst r).
Definition effects {E A} (r : A * E * list Effect) : list Effect := snd r.

(** Running the steps of a method: the binds of [Method] and the lock and
    log primitives are unfolded. *)
Ltac method_steps :=
  cbv beta iota delta
    [reading writing ReadLock ReadUnlock WriteLock WriteUnlock objectModified
     this emit assign mbind mret Method_bind Method_ret negb];
  cbn [fst snd].

End Database.

(* ===================================================================== *)
(** ** Package model                                                      *)
(* ===================================================================== *)

(** Package [model] is outside the files at hand. The world it keeps is
    the heap of entities with its tables; its functions are the interface
    [Ops]; the event bus is modelled from the spec. *)
Module Model.
Import Database.

(** A pointer to an entity: an address of the heap. *)
Definition ptr : Type := nat.

Inductive EventType : Type :=
| RoomUpdateEventType
| OtherEventType (kind : nat).

(** Modelled from the spec: an event, an immutable value with a type tag.
    It is a [RoomUpdateEvent] with its [Room] field, or an event of one of
    the other types, which [Session] only renders. *)
Inductive Event : Type :=
| RoomUpdateEvent (Room : ptr)
| OtherEvent (kind : nat) (text : string).

Definition Event_Type (event : Event) : EventType :=
  match event with
  | RoomUpdateEvent _ => RoomUpdateEventType
  | OtherEvent kind _ => OtherEventType kind
  end.

(** Modelled from the spec: the world shared by the sessions. The heaps
    hold the entities behind the pointers; the tables are the rooms and
    zones the model knows, and the room each character is in; the
    mailboxes are those of the event bus; the log keeps the lock and commit
    effects of the methods called. *)
Record World : Type := mkWorld {
  rooms : ptr -> Room;
  zones : ptr -> Zone;
  users : ptr -> User;
  roomTable : list ptr;
  zoneTable : list ptr;
  whereabouts : gmap ptr ptr;
  mailboxes : gset ptr;
  dblog : list Effect
}.

Definition set_rooms (f : ptr -> Room) (w : World) : World :=
  mkWorld f (zones w) (users w) (roomTable w) (zoneTable w) (whereabouts w)
          (mailboxes w) (dblog w).
Definition set_zones (f : ptr -> Zone) (w : World) : World :=
  mkWorld (rooms w) f (users w) (roomTable w) (zoneTable w) (whereabouts w)
          (mailboxes w) (dblog w).
Definition set_users (f : ptr -> User) (w : World) : World :=
  mkWorld (rooms w) (zones w) f (roomTable w) (zoneTable w) (whereabouts w)
          (mailboxes w) (dblog w).
Definition set_roomTable (t : list ptr) (w : World) : World :=
  mkWorld (rooms w) (zones w) (users w) t (zoneTable w) (whereabouts w)
          (mailboxes w) (dblog w).
Definition set_zoneTable (t : list ptr) (w : World) : World :=
  mkWorld (rooms w) (zones w) (users w) (roomTable w) t (whereabouts w)
          (mailboxes w) (dblog w).
Definition set_whereabouts (m : gmap ptr ptr) (w : World) : World :=
  mkWorld (rooms w) (zones w) (users w) (roomTable w) (zoneTable w) m
          (mailboxes w) (dblog w).
Definition set_mailboxes (m : gset ptr) (w : World) : World :=
  mkWorld (rooms w) (zones w) (users w) (roomTable w) (zoneTable w)
          (whereabouts w) m (dblog w).
Definition set_dblog (l : list Effect) (w : World) : World :=
  mkWorld (rooms w) (zones w) (users w) (roomTable w) (zoneTable w)
          (whereabouts w) (mailboxes w) l.

(** Calling a method on the object behind a pointer: the object is
    updated in place and the effects go to the log of the world. *)
Definition callRoom {A} (p : ptr) (m : Method Room A) (w : World) : A * World :=
  let '(a, r, log) := m (rooms w p) (dblog w) in
  (a, set_dblog log (set_rooms (<[p := r]> (rooms w)) w)).

Definition callZone {A} (p : ptr) (m : Method Zone A) (w : World) : A * World :=
  let '(a, z, log) := m (zones w p) (dblog w) in
  (a, set_dblog log (set_zones (<[p := z]> (zones w)) w)).

Definition callUser {A} (p : ptr) (m : Method User A) (w : World) : A * World :=
  let '(a, u, log) := m (users w p) (dblog w) in
  (a, set_dblog log (set_users (<[p := u]> (users w)) w)).

(** The functions of package [model] that [Session] calls, taken as they
    come. A query reads the world; an operation returns the new world. An
    event is an immutable value with the context to render the message of
    a recipient, so [ToString] is a function of the event and of the
    recipient. *)
Class Ops : Type := {
  ToString : Event -> ptr -> string;
  PrettyName : World -> ptr -> string;
  GetRoomByLocation : World -> Coordinate -> ptr -> option ptr;
  GetZoneByName : World -> string -> option ptr;
  GetZones : World -> list ptr;
  CreateZone : string -> World -> ptr * World;
  CreateRoom : ptr -> World -> ptr * World;
  MoveCharacterToRoom : ptr -> ptr -> World -> World;
  MoveRoomsToZone : ObjectId -> ObjectId -> World -> World
}.

(** What [printRoom] and [printRoomEditor] call to render a room, taken
    as it comes: the queries of the model for the players, the NPCs and the
    items of a room, the item ids of a room, and [Room.ToString], which
    reads the room and the characters and items it is given behind their
    pointers and so is a function of the world. *)
Class Rendering : Type := {
  PlayersIn : World -> ptr -> ptr -> list ptr;
  NpcsIn : World -> ptr -> list ptr;
  GetItems : World -> list ObjectId -> list ptr;
  itemIds : Room -> list ObjectId;
  Room_ToString : World -> ptr -> PrintMode -> Utils.ColorMode
                  -> list ptr -> list ptr -> list ptr -> string
}.

(** Modelled from the spec: [Room.GetItemIds], an accessor; the ids it
    copies are the parameter [itemIds]. *)
Definition GetItemIds `{Rendering} : Method Room (list ObjectId) := reading itemIds.

(** Modelled from the spec: [Register] of the event bus, which creates
    the mailbox of an actor; the mailbox is named by the actor. *)
Definition Register (player : ptr) (w : World) : World :=
  set_mailboxes (mailboxes w ∪ {[player]}) w.

(** Modelled from the spec: [Unregister] of the event bus, which removes
    the mailbox. *)
Definition Unregister (player : ptr) (w : World) : World :=
  set_mailboxes (mailboxes w ∖ {[player]}) w.

End Model.

(* ===================================================================== *)
(** ** Package session                                                    *)
(* ===================================================================== *)

Module Session.
Import Fmt Utils Database Model.

(** The [Session] struct. Its [conn] is the connection: what the session
    writes to it is the output of the state below, what comes from it is
    the pending input. *)
Record Session : Type := mkSession {
  user : ptr;
  player : ptr;
  room : ptr;
  zone : ptr
}.

Definition set_room (p : ptr) (session : Session) : Session :=
  mkSession (user session) (player session) p (zone session).
Definition set_zone (p : ptr) (session : Session) : Session :=
  mkSession (user session) (player session) (room session) p.

(** [type userInputMode int], with the two constants [iota] gives. *)
Definition userInputMode : Type := Z.
Definition CleanUserInput : userInputMode := 0%Z.
Definition RawUserInput : userInputMode := 1%Z.

Definition prompt : string := "> ".

(** *** The reader goroutine *)

Section Reader.
Context `{Utils.Ops}.

(** The [switch mode] of the reader: the input it reads in that mode, or
    the panic it raises. *)
Definition readInput (mode : userInputMode) (rd : Read) : Result string :=
  if (mode =? CleanUserInput)%Z then GetUserInput rd
  else if (mode =? RawUserInput)%Z then GetRawUserInput rd
  else Panicked "Unhandled case in switch statement (userInputMode)".

(** What the reader sends to the dispatcher for one request: the input on
    [userInputChannel], or, from the deferred [recover], the value of its
    panic on [panicChannel]. *)
Inductive ReaderMsg : Type :=
| OnUserInput (input : string)
| OnPanic (r : PanicValue).

Definition readerTurn (mode : userInputMode) (rd : Read) : ReaderMsg :=
  match readInput mode rd with
  | Ok input => OnUserInput input
  | Panicked r => OnPanic r
  end.

(** Time is a logical clock in nanoseconds. [time.Duration] is an [int64]
    count of nanoseconds, and the difference of two times saturates at its
    bounds. *)
Definition Duration : Type := Z.
Definition Millisecond : Duration := 1000000%Z.
Definition minDuration : Duration := (- 2 ^ 63)%Z.
Definition maxDuration : Duration := (2 ^ 63 - 1)%Z.

Definition Sub (t u : Z) : Duration :=
  let d := (t - u)%Z in
  if (d <? minDuration)%Z then minDuration
  else if (maxDuration <? d)%Z then maxDuration
  else d.

Definition Since (now t : Z) : Duration := Sub now t.

Definition delay : Duration := (200 * Millisecond)%Z.

(** One turn of the reader's loop as the environment makes it: the mode
    the dispatcher asks for, what the read gives, and how long the blocking
    steps take: from the last [time.Now()] to the end of the read, the time
    [time.Sleep] adds to the duration it is asked for, the wait for the
    dispatcher to take the input, and from there to the next
    [time.Now()]. *)
Record Request : Type := {
  reqMode : userInputMode;
  reqRead : Read;
  elapsed : N;
  overslept : N;
  handover : N;
  lag : N
}.

Inductive ReaderEvent : Type :=
| Slept (d : Duration)
| Delivered (time : Z) (input : string)
| Forwarded (time : Z) (r : PanicValue).

(** The loop of the goroutine, from the value of [lastTime]. It ends when
    no request comes any more, or with the panic it forwards. *)
Fixpoint readerLoop (lastTime : Z) (reqs : list Request) : list ReaderEvent :=
  match reqs with
  | [] => []
  | q :: reqs' =>
      let now := (lastTime + Z.of_N (elapsed q))%Z in
      match readInput (reqMode q) (reqRead q) with
      | Panicked r => [Forwarded (now + Z.of_N (handover q))%Z r]
      | Ok input =>
          let diff := Since now lastTime in
          let slept := if (diff <? delay)%Z then [Slept (delay - diff)%Z] else [] in
          let now :=
            if (diff <? delay)%Z
            then (now + (delay - diff) + Z.of_N (overslept q))%Z
            else now in
          let sent := (now + Z.of_N (handover q))%Z in
          slept ++ Delivered sent input :: readerLoop (sent + Z.of_N (lag q))%Z reqs'
      end
  end.

(** The goroutine starts with [lastTime := time.Now()]. *)
Definition reader (start : Z) (reqs : list Request) : list ReaderEvent :=
  readerLoop start reqs.

(** The times at which inputs are handed to the dispatcher. *)
Fixpoint deliveries (evs : list ReaderEvent) : list Z :=
  match evs with
  | [] => []
  | Delivered t _ :: evs' => t :: deliveries evs'
  | _ :: evs' => deliveries evs'
  end.

End Reader.

(** *** The dispatcher

    The dispatcher runs in a state with what it has written and what is
    still to arrive. The goroutine of the reader shows in it through its
    messages: an [AInput] arrival is the moment the [select] of
    [getUserInput] takes the message the reader made of a read, and the
    events before it are the ones the [select] took first. *)

(** What the session writes to its connection: [utils.ClearLine(conn)],
    [utils.WriteLine(conn, line)], [io.WriteString(conn, data)] and
    [menu.Print(conn, cm)]. The writers are outside the files at hand; the
    output keeps the call with what it is given. *)
Inductive Output : Type :=
| OClearLine
| OLine (line : string)
| OString (data : string)
| OMenu (menu : Menu) (cm : Utils.ColorMode).

(** What the [select] of [getUserInput] receives next: an event from the
    mailbox, or the message of the reader, which is made from what the
    read gives. *)
Inductive Arrival : Type :=
| AEvent (event : Event)
| AInput (rd : Read).

Record State : Type := mkState {
  session : Session;
  world : World;
  out : list Output;
  pending : list Arrival
}.

Definition set_session (x : Session) (s : State) : State :=
  mkState x (world s) (out s) (pending s).
Definition set_world (w : World) (s : State) : State :=
  mkState (session s) w (out s) (pending s).
Definition set_out (o : list Output) (s : State) : State :=
  mkState (session s) (world s) o (pending s).
Definition set_pending (l : list Arrival) (s : State) : State :=
  mkState (session s) (world s) (out s) l.

(** How a call ends: it returns, it panics, it waits for ever for input
    that does not come, or the fuel of the model is used up. *)
Inductive Outcome (A : Type) : Type :=
| Ret (a : A)
| Panic (v : PanicValue)
| Blocked
| OutOfFuel.
Arguments Ret {A} a.
Arguments Panic {A} v.
Arguments Blocked {A}.
Arguments OutOfFuel {A}.

Definition M (A : Type) : Type := State -> Outcome A * State.

#[export] Instance M_ret : MRet M := fun A (a : A) s => (Ret a, s).

#[export] Instance M_bind : MBind M :=
  fun A B (k : A -> M B) (m : M A) s =>
    match m s with
    | (Ret a, s') => k a s'
    | (Panic v, s') => (Panic v, s')
    | (Blocked, s') => (Blocked, s')
    | (OutOfFuel, s') => (OutOfFuel, s')
    end.

Definition get : M State := fun s => (Ret s, s).
Definition panic {A} (v : PanicValue) : M A := fun s => (Panic v, s).
Definition blocked {A} : M A := fun s => (Blocked, s).
Definition outOfFuel {A} : M A := fun s => (OutOfFuel, s).

Definition update (f : State -> State) : M unit := fun s => (Ret tt, f s).

Definition inWorld {A} (f : World -> A * World) : M A :=
  fun s => let '(a, w) := f (world s) in (Ret a, set_world w s).

Definition onRoom {A} (p : ptr) (m : Method Room A) : M A := inWorld (callRoom p m).
Definition onZone {A} (p : ptr) (m : Method Zone A) : M A := inWorld (callZone p m).
Definition onUser {A} (p : ptr) (m : Method User A) : M A := inWorld (callUser p m).

(** [defer cleanup; body]: the deferred call runs when [body] returns and
    when it panics. *)
Definition defer {A} (cleanup : State -> State) (body : M A) : M A :=
  fun s =>
    match body s with
    | (Ret a, s') => (Ret a, cleanup s')
    | (Panic v, s') => (Panic v, cleanup s')
    | (Blocked, s') => (Blocked, s')
    | (OutOfFuel, s') => (OutOfFuel, s')
    end.

Definition write (o : Output) : M unit := update (fun s => set_out (out s ++ [o]) s).

(** *** The print helpers *)

Section Print.
Context `{Fmt.Ops} `{Utils.Ops} `{Rendering}.

Definition printString (data : string) : M unit := write (OString data).

(** The line is the format of [fmt.Sprintf], the operands are [a]; the
    text is colorized in the colour mode of the user, which is read by its
    accessor, and written. *)
Definition printLineColor (color : Color) (line : string) (a : list string) : M unit :=
  s ← get;
  cm ← onUser (user (session s)) GetColorMode;
  write (OLine (Colorize cm color (Sprintf line a))).

Definition printLine (line : string) (a : list string) : M unit :=
  printLineColor ColorWhite line a.

Definition printError (err : string) (a : list string) : M unit :=
  printLineColor ColorRed err a.

(** The operands of [ToString] are evaluated from left to right: the
    colour mode, then the item ids and the items; the text then goes to
    [printLine], as its format. *)
Definition printRoom : M unit :=
  s ← get;
  let playerList := PlayersIn (world s) (room (session s)) (player (session s)) in
  let npcList := NpcsIn (world s) (room (session s)) in
  cm ← onUser (user (session s)) GetColorMode;
  ids ← onRoom (room (session s)) GetItemIds;
  s' ← get;
  printLine (Room_ToString (world s') (room (session s)) ReadMode cm playerList npcList
               (GetItems (world s') ids)) [].

Definition printRoomEditor : M unit :=
  s ← get;
  cm ← onUser (user (session s)) GetColorMode;
  s' ← get;
  printLine (Room_ToString (world s') (room (session s)) EditMode cm [] [] []) [].

Definition clearLine : M unit := write OClearLine.

End Print.

Section Exec.
Context `{Fmt.Ops} `{Utils.Ops} `{Directions} `{Model.Ops} `{Rendering}.

(** [handleAction] and the cases of [processCommand] that are not
    modelled below are outside this development and taken as they come. *)
Variable handleAction : string -> list string -> M unit.
Variable otherCommand : nat -> string -> list string -> M unit.

(** The type assertion [event.(model.RoomUpdateEvent)]. *)
Definition asRoomUpdateEvent (event : Event) : M ptr :=
  match event with
  | RoomUpdateEvent r => mret r
  | OtherEvent _ _ => panic "interface conversion"
  end.

Definition processEvent (event : Event) : M string :=
  s ← get;
  let message := ToString event (player (session s)) in
  match Event_Type event with
  | RoomUpdateEventType =>
      roomEventRoom ← asRoomUpdateEvent event;
      id ← onRoom roomEventRoom Room_GetId;
      s ← get;
      id' ← onRoom (room (session s)) Room_GetId;
      if String.eqb id id'
      then update (fun s => set_session (set_room roomEventRoom (session s)) s)
      else mret tt
  | OtherEventType _ => mret tt
  end;;
  mret message.

(** The [select] loop of [getUserInput], over what it receives. *)
Fixpoint awaitInput (inputMode : userInputMode) (prompt : string)
    (arrivals : list Arrival) : M string :=
  match arrivals with
  | [] => blocked
  | AInput rd :: rest =>
      update (set_pending rest);;
      match readerTurn inputMode rd with
      | OnUserInput input => mret input
      | OnPanic quitMessage => panic quitMessage
      end
  | AEvent event :: rest =>
      update (set_pending rest);;
      message ← processEvent event;
      (if negb (String.eqb message "") then
         clearLine;;
         printLine message [];;
         printString prompt
       else mret tt);;
      awaitInput inputMode prompt rest
  end.

Definition getUserInput (inputMode : userInputMode) (prompt : string) : M string :=
  s ← get;
  awaitInput inputMode prompt (pending s).

(** What [getUserInput] writes for an event it receives while it waits
    with [prompt] displayed to [player], whose user has the colour mode
    [cm]: nothing when the message is empty, otherwise the line is cleared,
    the message is printed and the prompt is printed again. The message is
    printed by [printLine]: it is the format of [fmt.Sprintf], and the line
    written is the text [fmt.Sprintf] makes of it, in white. *)
Definition rendered (prompt : string) (cm : Utils.ColorMode) (player : ptr)
    (event : Event) : list Output :=
  let message := ToString event player in
  if String.eqb message "" then []
  else [OClearLine; OLine (Colorize cm ColorWhite (Sprintf message [])); OString prompt].

Fixpoint execMenu (fuel : nat) (menu : Menu) : M (string * ObjectId) :=
  match fuel with
  | 0 => outOfFuel
  | S fuel' =>
      s ← get;
      cm ← onUser (user (session s)) GetColorMode;
      write (OMenu menu cm);;
      choice ← getUserInput CleanUserInput (GetPrompt menu);
      if (HasAction menu choice || String.eqb choice "")%bool
      then mret (choice, GetData menu choice)
      else execMenu fuel' menu
  end.

Definition toggleExitMenu (cm : Utils.ColorMode) (room : ptr) : M Menu :=
  let onOrOff (direction : ExitDirection) : M string :=
    has ← onRoom room (HasExit direction);
    mret (Colorize cm ColorBlue (if has : bool then "On" else "Off")) in
  let menu := NewMenu "Edit Exits" in
  t ← onOrOff DirectionNorth; let menu := AddAction "n" ("[N]orth: " +:+ t) menu in
  t ← onOrOff DirectionNorthEast; let menu := AddAction "ne" ("[NE]North East: " +:+ t) menu in
  t ← onOrOff DirectionEast; let menu := AddAction "e" ("[E]ast: " +:+ t) menu in
  t ← onOrOff DirectionSouthEast; let menu := AddAction "se" ("[SE]South East: " +:+ t) menu in
  t ← onOrOff DirectionSouth; let menu := AddAction "s" ("[S]outh: " +:+ t) menu in
  t ← onOrOff DirectionSouthWest; let menu := AddAction "sw" ("[SW]South West: " +:+ t) menu in
  t ← onOrOff DirectionWest; let menu := AddAction "w" ("[W]est: " +:+ t) menu in
  t ← onOrOff DirectionNorthWest; let menu := AddAction "nw" ("[NW]North West: " +:+ t) menu in
  t ← onOrOff DirectionUp; let menu := AddAction "u" ("[U]p: " +:+ t) menu in
  t ← onOrOff DirectionDown; let menu := AddAction "d" ("[D]own: " +:+ t) menu in
  mret menu.

(** The body of the exit editor for one choice of the menu: toggle the
    exit of the room, and of the adjacent room if there is one. *)
Definition toggleExit (direction : ExitDirection) : M unit :=
  if decide (direction ≠ DirectionNone) then
    s ← get;
    has ← onRoom (room (session s)) (HasExit direction);
    let enable := negb has in
    onRoom (room (session s)) (SetExitEnabled direction enable);;
    loc ← onRoom (room (session s)) (NextLocation direction);
    s' ← get;
    let otherRoom := GetRoomByLocation (world s') loc (zone (session s')) in
    match otherRoom with
    | Some otherRoom => onRoom otherRoom (SetExitEnabled (Opposite direction) enable)
    | None => mret tt
    end
  else mret tt.

Fixpoint editExits (fuel : nat) : M unit :=
  match fuel with
  | 0 => outOfFuel
  | S fuel' =>
      s ← get;
      cm ← onUser (user (session s)) GetColorMode;
      menu ← toggleExitMenu cm (room (session s));
      r ← execMenu fuel' menu;
      let choice := fst r in
      if String.eqb choice "" then mret tt
      else
        toggleExit (StringToDirection choice);;
        editExits fuel'
  end.

(** The loop of the [edit] command. *)
Fixpoint editLoop (fuel : nat) : M unit :=
  match fuel with
  | 0 => outOfFuel
  | S fuel' =>
      input ← getUserInput CleanUserInput "Select a section to edit: ";
      if String.eqb input "" then printRoom
      else if String.eqb input "1" then
        input ← getUserInput RawUserInput "Enter new title: ";
        (if negb (String.eqb input "")
         then s ← get; onRoom (room (session s)) (SetTitle input)
         else mret tt);;
        printRoomEditor;;
        editLoop fuel'
      else if String.eqb input "2" then
        input ← getUserInput RawUserInput "Enter new description: ";
        (if negb (String.eqb input "")
         then s ← get; onRoom (room (session s)) (SetDescription input)
         else mret tt);;
        printRoomEditor;;
        editLoop fuel'
      else if String.eqb input "3" then
        editExits fuel';;
        printRoomEditor;;
        editLoop fuel'
      else
        printLine "Invalid selection" [];;
        editLoop fuel'
  end.

(** The [zone] command. *)
Definition zoneCommand (args : list string) : M unit :=
  match args with
  | [] =>
      s ← get;
      id ← onZone (zone (session s)) Zone_GetId;
      if String.eqb id "" then printLine "Currently in the null zone" []
      else
        cm ← onUser (user (session s)) GetColorMode;
        name ← onZone (zone (session s)) Zone_GetName;
        printLine ("Current zone: " +:+ Colorize cm ColorBlue name) []
  | [arg0] =>
      if String.eqb arg0 "list" then
        printLineColor ColorBlue "Zones" [];;
        printLineColor ColorBlue "-----" [];;
        s ← get;
        foldr (fun z k => name ← onZone z Zone_GetName; printLine name [];; k)
              (mret tt) (GetZones (world s))
      else printError "Usage: /zone [list|rename <name>|new <name>]" []
  | [arg0; arg1] =>
      if String.eqb arg0 "rename" then
        s ← get;
        match GetZoneByName (world s) arg0 with
        | Some _ => printError "A zone with that name already exists" []
        | None =>
            id ← onZone (zone (session s)) Zone_GetId;
            if String.eqb id "" then
              z ← inWorld (CreateZone arg1);
              update (fun s => set_session (set_zone z (session s)) s);;
              id' ← onZone z Zone_GetId;
              inWorld (fun w => (tt, MoveRoomsToZone "" id' w))
            else onZone (zone (session s)) (Zone_SetName arg1)
        end
      else if String.eqb arg0 "new" then
        s ← get;
        match GetZoneByName (world s) arg0 with
        | Some _ => printError "A zone with that name already exists" []
        | None =>
            newZone ← inWorld (CreateZone arg1);
            newRoom ← inWorld (CreateRoom newZone);
            inWorld (fun w => (tt, MoveCharacterToRoom (player (session s)) newRoom w));;
            update (fun s => set_session (set_zone newZone (session s)) s);;
            update (fun s => set_session (set_room newRoom (session s)) s);;
            printRoom
        end
      else mret tt
  | _ => mret tt
  end.

Definition processCommand (fuel : nat) (command : string) (args : list string) : M unit :=
  if String.eqb command "help" then mret tt
  else if String.eqb command "edit" then printRoomEditor;; editLoop fuel
  else if String.eqb command "zone" then zoneCommand args
  else otherCommand fuel command args.

(** [input[1:]] *)
Definition from1 (input : string) : string :=
  String.substring 1 (String.length input - 1) input.

(** What the main loop does with an input that does not end the
    session. *)
Definition dispatch (fuel : nat) (input : string) : M unit :=
  if String.prefix "/" input
  then let '(command, args) := Argify (from1 input) in
       processCommand fuel command args
  else let '(command, args) := Argify input in
       handleAction command args.

(** The main loop of [Exec]. *)
Fixpoint mainLoop (fuel : nat) : M unit :=
  match fuel with
  | 0 => outOfFuel
  | S fuel' =>
      input ← getUserInput RawUserInput prompt;
      if (String.eqb input "" || String.eqb input "logout")%bool then mret tt
      else
        dispatch fuel' input;;
        mainLoop fuel'
  end.

(** [Exec]: the mailbox is registered and its removal deferred, the
    welcome and the room are printed, the reader is started, and the main
    loop runs. *)
Definition Exec (fuel : nat) : M unit :=
  s ← get;
  let eventChannel := player (session s) in
  inWorld (fun w => (tt, Register eventChannel w));;
  defer (fun s => set_world (Unregister eventChannel (world s)) s) (
    s ← get;
    printLineColor ColorWhite ("Welcome, " +:+ PrettyName (world s) (player (session s))) [];;
    printRoom;;
    mainLoop fuel).

End Exec.

(** Running the steps of the dispatcher: the binds of [M] and the state
    primitives are unfolded. *)
Ltac session_steps :=
  cbv beta iota delta
    [mbind mret M_bind M_ret get update inWorld onRoom onZone onUser panic blocked
     outOfFuel write printString printLine printError clearLine asRoomUpdateEvent
     Event_Type];
  cbn [fst snd session world out pending set_session set_world set_out set_pending
       user player room zone set_room set_zone
       rooms zones users roomTable zoneTable whereabouts mailboxes dblog
       set_rooms set_zones set_users set_roomTable set_zoneTable set_whereabouts
       set_mailboxes set_dblog].

(** Looking an address up in an updated heap, by cases on the address. *)
Ltac heap_cases :=
  repeat match goal with
  | |- context [ @insert _ _ (_ -> _) _ ?a _ _ ?b ] =>
      destruct (decide (a = b)) as [->|?];
      [rewrite fn_lookup_insert | rewrite fn_lookup_insert_ne by assumption]
  end.

End Session.

(* ===================================================================== *)
(** ** A small world                                                      *)
(* ===================================================================== *)

(** Instances of the interfaces and a world of two rooms and one zone,
    on which the code above runs. *)
Module Sample.
Import Fmt Utils Database Model Session.

(** *** [fmt.Sprintf]

    The format is scanned as [doPrintf] of package [fmt] scans it: text is
    copied; after a percent sign come flags, an argument index, a width, a
    precision, an argument index and the verb. The calls modelled here pass
    no operand, so that a verb has none to print: [%%] writes a percent
    sign, any other verb writes [%!v(MISSING)] with its own letter, or
    [%!v(BADINDEX)] after an argument index, a star writes [%!(BADWIDTH)]
    or [%!(BADPREC)], and a format that ends within a verb writes
    [%!(NOVERB)]. Operands are strings: [%s] and [%v] write the next one as
    it is, [%T] its type, another verb reports it as a wrong verb, and the
    operands no verb has taken are reported at the end. *)

Definition isDigit (c : ascii) : bool :=
  let n := Ascii.nat_of_ascii c in Nat.leb 48 n && Nat.leb n 57.

Definition isLowerCase (c : ascii) : bool :=
  let n := Ascii.nat_of_ascii c in Nat.leb 97 n && Nat.leb n 122.

Definition isFlag (c : ascii) : bool :=
  Ascii.eqb c "#" || Ascii.eqb c "0" || Ascii.eqb c "+" || Ascii.eqb c "-"
  || Ascii.eqb c " ".

Definition isContinuation (c : ascii) : bool :=
  let n := Ascii.nat_of_ascii c in Nat.leb 128 n && Nat.leb n 191.

Definition char (c : ascii) : string := String c EmptyString.

(** [utf8.RuneError], encoded. *)
Definition runeError : string :=
  String (Ascii.ascii_of_nat 239)
    (String (Ascii.ascii_of_nat 191) (String (Ascii.ascii_of_nat 189) EmptyString)).

Section Format.
Variable format : list ascii.
Variable a : list string.

Definition at_ (i : nat) : ascii := nth i format Ascii.zero.
Definition fend : nat := length format.
Definition numArgs : nat := length a.

Definition is_at (i : nat) (c : ascii) : bool :=
  Nat.ltb i fend && Ascii.eqb (at_ i) c.

Fixpoint parsenumFrom (fuel i stop : nat) (num : N) (isnum : bool) : N * bool * nat :=
  match fuel with
  | 0 => (num, isnum, i)
  | S fuel' =>
      if Nat.ltb i stop && isDigit (at_ i) then
        if (1000000 <? num)%N then (0%N, false, stop)
        else parsenumFrom fuel' (S i) stop
               (num * 10 + N.of_nat (Ascii.nat_of_ascii (at_ i) - 48))%N true
      else (num, isnum, i)
  end.

Definition parsenum (start stop : nat) : N * bool * nat :=
  if Nat.leb stop start then (0%N, false, stop)
  else parsenumFrom (stop - start) start stop 0%N false.

Fixpoint findBracket (fuel k : nat) : option nat :=
  match fuel with
  | 0 => None
  | S fuel' =>
      if Nat.ltb k fend then
        if Ascii.eqb (at_ k) "]" then Some k else findBracket fuel' (S k)
      else None
  end.

(** [parseArgNumber] on the format from [i], where a bracket opens: the
    index, the number of bytes to skip, and whether an index was there. *)
Definition parseArgNumber (i : nat) : Z * nat * bool :=
  if Nat.ltb (fend - i) 3 then (0%Z, 1, false)
  else
    match findBracket (fend - i) (S i) with
    | Some k =>
        let '(width, ok, newi) := parsenum (S i) k in
        if negb ok || negb (Nat.eqb newi k) then (0%Z, k - i + 1, false)
        else ((Z.of_N width - 1)%Z, k - i + 1, true)
    | None => (0%Z, 1, false)
    end.

(** The state of the scan of one verb: the position, the operand that is
    next, whether the index is good, whether the operands were taken out of
    order, and what is written. *)
Record Scan : Type := mkScan {
  pos : nat;
  argNum : nat;
  goodArgNum : bool;
  reordered : bool;
  buf : string
}.

Definition argNumber (sc : Scan) : Scan * bool :=
  if negb (is_at (pos sc) "[") then (sc, false)
  else
    let '(index, wid, ok) := parseArgNumber (pos sc) in
    if ok && (0 <=? index)%Z && (index <? Z.of_nat numArgs)%Z
    then (mkScan (pos sc + wid) (Z.to_nat index) (goodArgNum sc) true (buf sc), true)
    else (mkScan (pos sc + wid) (argNum sc) false true (buf sc), ok).

(** [intFromArg] on operands that are strings: the operand is taken, and
    is no integer. *)
Definition starArg (bad : string) (sc : Scan) : Scan :=
  mkScan (S (pos sc))
         (if Nat.ltb (argNum sc) numArgs then S (argNum sc) else argNum sc)
         (goodArgNum sc) (reordered sc) (buf sc +:+ bad).

Definition widthStep (sc : Scan) (afterIndex : bool) : Scan * bool :=
  if is_at (pos sc) "*" then (starArg "%!(BADWIDTH)" sc, false)
  else
    let '(_, widPresent, i) := parsenum (pos sc) fend in
    (mkScan i (argNum sc) (goodArgNum sc && negb (afterIndex && widPresent))
            (reordered sc) (buf sc), afterIndex).

Definition precisionStep (sc : Scan) (afterIndex : bool) : Scan * bool :=
  if is_at (pos sc) "." then
    let sc := mkScan (S (pos sc)) (argNum sc) (goodArgNum sc && negb afterIndex)
                     (reordered sc) (buf sc) in
    let '(sc, afterIndex) := argNumber sc in
    if is_at (pos sc) "*" then (starArg "%!(BADPREC)" sc, false)
    else
      let '(_, _, i) := parsenum (pos sc) fend in
      (mkScan i (argNum sc) (goodArgNum sc) (reordered sc) (buf sc), afterIndex)
  else (sc, afterIndex).

(** The verb at [i], a rune, as it is written, and its size in bytes. *)
Definition decodeVerb (i : nat) : string * nat :=
  let b := Ascii.nat_of_ascii (at_ i) in
  let cont (k : nat) := Nat.ltb (i + k) fend && isContinuation (at_ (i + k)) in
  let b1 := Ascii.nat_of_ascii (at_ (S i)) in
  if Nat.ltb b 128 then (char (at_ i), 1)
  else if Nat.leb 194 b && Nat.leb b 223 && cont 1
  then (String (at_ i) (char (at_ (S i))), 2)
  else if Nat.leb 224 b && Nat.leb b 239 && cont 1 && cont 2
          && negb (Nat.eqb b 224 && Nat.ltb b1 160)
          && negb (Nat.eqb b 237 && Nat.ltb 159 b1)
  then (String (at_ i) (String (at_ (S i)) (char (at_ (S (S i))))), 3)
  else if Nat.leb 240 b && Nat.leb b 244 && cont 1 && cont 2 && cont 3
          && negb (Nat.eqb b 240 && Nat.ltb b1 144)
          && negb (Nat.eqb b 244 && Nat.ltb 143 b1)
  then (String (at_ i)
          (String (at_ (S i)) (String (at_ (S (S i))) (char (at_ (S (S (S i))))))), 4)
  else (runeError, 1).

(** [printArg] on an operand that is a string. *)
Definition printArg (operand : string) (verb : string) : string :=
  if String.eqb verb "s" || String.eqb verb "v" then operand
  else if String.eqb verb "T" then "string"
  else "%!" +:+ verb +:+ "(string=" +:+ operand +:+ ")".

Fixpoint skipFlags (fuel i : nat) : nat :=
  match fuel with
  | 0 => i
  | S fuel' => if Nat.ltb i fend && isFlag (at_ i) then skipFlags fuel' (S i) else i
  end.

(** One verb, from the byte after the percent sign: the scan after it,
    and whether the format ended within it. *)
Definition verbStep (i operand : nat) (wasReordered : bool) : Scan * bool :=
  let i := skipFlags fend i in
  if Nat.ltb i fend && isLowerCase (at_ i) && Nat.ltb operand numArgs then
    (mkScan (S i) (S operand) true wasReordered
            (printArg (nth operand a "") (char (at_ i))), false)
  else
    let '(sc, afterIndex) := argNumber (mkScan i operand true wasReordered "") in
    let '(sc, afterIndex) := widthStep sc afterIndex in
    let '(sc, afterIndex) := precisionStep sc afterIndex in
    let '(sc, _) := if afterIndex then (sc, afterIndex) else argNumber sc in
    if Nat.leb fend (pos sc) then
      (mkScan (pos sc) (argNum sc) (goodArgNum sc) (reordered sc)
              (buf sc +:+ "%!(NOVERB)"), true)
    else
      let '(verb, size) := decodeVerb (pos sc) in
      let next := pos sc + size in
      if String.eqb verb "%" then
        (mkScan next (argNum sc) (goodArgNum sc) (reordered sc) (buf sc +:+ "%"), false)
      else if negb (goodArgNum sc) then
        (mkScan next (argNum sc) (goodArgNum sc) (reordered sc)
                (buf sc +:+ "%!" +:+ verb +:+ "(BADINDEX)"), false)
      else if Nat.leb numArgs (argNum sc) then
        (mkScan next (argNum sc) (goodArgNum sc) (reordered sc)
                (buf sc +:+ "%!" +:+ verb +:+ "(MISSING)"), false)
      else
        (mkScan next (S (argNum sc)) (goodArgNum sc) (reordered sc)
                (buf sc +:+ printArg (nth (argNum sc) a "") verb), false).

(** The operands that are left when the format is done. *)
Definition extra (operand : nat) (wasReordered : bool) : string :=
  if negb wasReordered && Nat.ltb operand numArgs then
    "%!(EXTRA "
    +:+ String.concat ", " (map (fun v => "string=" +:+ v) (drop operand a))
    +:+ ")"
  else "".

Fixpoint doPrintf (fuel i operand : nat) (wasReordered : bool) : string :=
  match fuel with
  | 0 => ""
  | S fuel' =>
      if Nat.leb fend i then extra operand wasReordered
      else if negb (Ascii.eqb (at_ i) "%")
      then String (at_ i) (doPrintf fuel' (S i) operand wasReordered)
      else
        let '(sc, ended) := verbStep (S i) operand wasReordered in
        buf sc +:+
        (if ended then extra (argNum sc) (reordered sc)
         else doPrintf fuel' (pos sc) (argNum sc) (reordered sc))
  end.

End Format.

Definition sprintf (format : string) (a : list string) : string :=
  doPrintf (list_ascii_of_string format) a (S (String.length format)) 0 0 false.

#[export] Instance fmt : Fmt.Ops := {| Sprintf := sprintf |}.

Definition lower (c : ascii) : ascii :=
  let n := Ascii.nat_of_ascii c in
  if (65 <=? n)%nat && (n <=? 90)%nat then Ascii.ascii_of_nat (n + 32) else c.

Fixpoint lowerString (s : string) : string :=
  match s with
  | EmptyString => EmptyString
  | String c r => String (lower c) (lowerString r)
  end.

Fixpoint trimLeft (s : string) : string :=
  match s with
  | EmptyString => EmptyString
  | String c r => if Ascii.is_space c then trimLeft r else s
  end.

Definition trim (s : string) : string :=
  String.rev (trimLeft (String.rev (trimLeft s))).

Definition sampleMenu (keys : list string) : Menu :=
  {| GetPrompt := "> ";
     HasAction := fun k => bool_decide (k ∈ keys);
     GetData := fun _ => "" |}.

#[export] Instance utils : Utils.Ops := {|
  CleanLine := fun line =>
    if (String.eqb line "x" || String.eqb line "X")%bool then ""
    else lowerString (trim line);
  Argify := fun line =>
    match String.words line with
    | [] => ("", [])
    | w :: ws => (w, ws)
    end;
  Colorize := fun _ _ text => text;
  NewMenu := fun _ => sampleMenu [];
  AddAction := fun key _ menu =>
    {| GetPrompt := GetPrompt menu;
       HasAction := fun k => (String.eqb k key || HasAction menu k)%bool;
       GetData := GetData menu |}
|}.

#[export] Instance directions : Directions := {|
  StringToDirection := fun s =>
    if String.eqb s "n" then DirectionNorth
    else if String.eqb s "ne" then DirectionNorthEast
    else if String.eqb s "e" then DirectionEast
    else if String.eqb s "se" then DirectionSouthEast
    else if String.eqb s "s" then DirectionSouth
    else if String.eqb s "sw" then DirectionSouthWest
    else if String.eqb s "w" then DirectionWest
    else if String.eqb s "nw" then DirectionNorthWest
    else if String.eqb s "u" then DirectionUp
    else if String.eqb s "d" then DirectionDown
    else DirectionNone;
  Opposite := fun d =>
    match d with
    | DirectionNone => DirectionNone
    | DirectionNorth => DirectionSouth | DirectionNorthEast => DirectionSouthWest
    | DirectionEast => DirectionWest | DirectionSouthEast => DirectionNorthWest
    | DirectionSouth => DirectionNorth | DirectionSouthWest => DirectionNorthEast
    | DirectionWest => DirectionEast | DirectionNorthWest => DirectionSouthEast
    | DirectionUp => DirectionDown | DirectionDown => DirectionUp
    end;
  nextLocation := fun r d =>
    let '(dx, dy, dz) :=
      match d with
      | DirectionNone => (0, 0, 0)
      | DirectionNorth => (0, -1, 0) | DirectionNorthEast => (1, -1, 0)
      | DirectionEast => (1, 0, 0) | DirectionSouthEast => (1, 1, 0)
      | DirectionSouth => (0, 1, 0) | DirectionSouthWest => (-1, 1, 0)
      | DirectionWest => (-1, 0, 0) | DirectionNorthWest => (-1, -1, 0)
      | DirectionUp => (0, 0, 1) | DirectionDown => (0, 0, -1)
      end%Z in
    {| X := X (Location r) + dx; Y := Y (Location r) + dy; Z_ := Z_ (Location r) + dz |}%Z
|}.

Definition fresh (table : list ptr) : ptr := S (foldr Nat.max 0 table).

Definition newZone (p : ptr) (name : string) : Zone :=
  {| ZoneDb := {| Id := "z" +:+ pretty p |}; ZoneName := name |}.

Definition newRoom (p : ptr) (zoneId : ObjectId) : Room :=
  {| RoomDb := {| Id := "r" +:+ pretty p |}; RoomZoneId := zoneId;
     Title := "The Void"; Description := "";
     Location := {| X := 0; Y := 0; Z_ := 0 |}; Exits := ∅ |}.

#[export] Instance model : Model.Ops := {|
  ToString := fun event _ =>
    match event with
    | RoomUpdateEvent _ => ""
    | OtherEvent _ text => text
    end;
  PrettyName := fun _ _ => "Ann";
  GetRoomByLocation := fun w loc z =>
    find (fun p => bool_decide (Location (rooms w p) = loc) &&
                   String.eqb (RoomZoneId (rooms w p)) (GetId (zones w z)))
         (roomTable w);
  GetZoneByName := fun w name =>
    find (fun p => String.eqb (ZoneName (zones w p)) name) (zoneTable w);
  GetZones := zoneTable;
  CreateZone := fun name w =>
    let p := fresh (zoneTable w) in
    let z := newZone p name in
    (p, set_dblog (dblog w ++ [EObjectModified ZoneType (GetId z)])
          (set_zoneTable (zoneTable w ++ [p]) (set_zones (<[p := z]> (zones w)) w)));
  CreateRoom := fun z w =>
    let p := fresh (roomTable w) in
    let r := newRoom p (GetId (zones w z)) in
    (p, set_dblog (dblog w ++ [EObjectModified RoomType (GetId r)])
          (set_roomTable (roomTable w ++ [p]) (set_rooms (<[p := r]> (rooms w)) w)));
  MoveCharacterToRoom := fun c r w =>
    set_whereabouts (<[c := r]> (whereabouts w)) w;
  MoveRoomsToZone := fun from to w =>
    foldr (fun p w =>
             if String.eqb (RoomZoneId (rooms w p)) from
             then let r := rooms w p in
                  set_rooms (<[p := {| RoomDb := RoomDb r; RoomZoneId := to;
                                       Title := Title r; Description := Description r;
                                       Location := Location r; Exits := Exits r |}]>
                               (rooms w)) w
             else w)
          w (roomTable w)
|}.

(** A room is rendered by its id and title, and by its title in the
    editor; no room has players, NPCs or items in it. *)
#[export] Instance rendering : Rendering := {|
  PlayersIn := fun _ _ _ => [];
  NpcsIn := fun _ _ => [];
  GetItems := fun _ _ => [];
  itemIds := fun _ => [];
  Room_ToString := fun w p mode _ _ _ _ =>
    match mode with
    | ReadMode => GetId (rooms w p) +:+ " " +:+ Title (rooms w p)
    | EditMode => "[1] Title: " +:+ Title (rooms w p)
    end
|}.

Definition cave : Area :=
  {| AreaDb := {| Id := "a1" |}; Name := "cave"; ZoneId := "z1" |}.

Definition hall : Room :=
  {| RoomDb := {| Id := "r1" |}; RoomZoneId := "z1"; Title := "Hall";
     Description := "A hall."; Location := {| X := 0; Y := 0; Z_ := 0 |};
     Exits := ∅ |}.

Definition yard : Room :=
  {| RoomDb := {| Id := "r2" |}; RoomZoneId := "z1"; Title := "Yard";
     Description := "A yard."; Location := {| X := 0; Y := -1; Z_ := 0 |};
     Exits := ∅ |}.

Definition town : Zone := {| ZoneDb := {| Id := "z1" |}; ZoneName := "town" |}.

Definition ann : User := {| UserDb := {| Id := "u1" |}; ColorMode := ColorModeNone |}.

Definition w0 : World :=
  {| rooms := fun p => match p with 2 => yard | _ => hall end;
     zones := fun _ => town;
     users := fun _ => ann;
     roomTable := [1; 2];
     zoneTable := [1];
     whereabouts := {[ 1 := 1 ]};
     mailboxes := ∅;
     dblog := [] |}.

(** A session of the player in the hall, with the pending input given. *)
Definition start (arrivals : list Arrival) : State :=
  {| session := {| user := 1; player := 1; room := 1; zone := 1 |};
     world := w0; out := []; pending := arrivals |}.

(** Four events, the second for another room, the third without a
    message and the last with a percent sign in its message, and what
    follows the line of the user. *)
Definition chatter : list Event :=
  [OtherEvent 1 "Bob says hi"; RoomUpdateEvent 2; OtherEvent 2 "";
   OtherEvent 1 "Sale: 50% off"].

Definition more : list Arrival := [AInput (Line "more")].

(** The session with the events pending, then a line, or a failure of the
    read, then [more]. *)
Definition typing (line : string) : State :=
  start (map AEvent chatter ++ AInput (Line line) :: more).

Definition failing (r : PanicValue) : State :=
  start (map AEvent chatter ++ AInput (Failure r) :: more).

Definition exitMenu : Menu := sampleMenu ["n"; "s"].

(** A request that is served at once, and five of them in a row. *)
Definition atOnce (line : string) : Request :=
  {| reqMode := RawUserInput; reqRead := Line line;
     elapsed := 0; overslept := 0; handover := 0; lag := 0 |}.

Definition burst : list Request :=
  [atOnce "a"; atOnce "b"; atOnce "c"; atOnce "d"; atOnce "e"].

(** The session in a second zone, [port], next to [town]. *)
Definition inPort : State :=
  let '(z, w) := CreateZone "port" w0 in
  {| session := {| user := 1; player := 1; room := 1; zone := z |};
     world := w; out := []; pending := [] |}.

Definition zoneNames (s : State) : list string :=
  map (fun z => ZoneName (zones (world s) z)) (zoneTable (world s)).

Definition noAction : string -> list string -> M unit := fun _ _ => mret tt.
Definition noCommand : nat -> string -> list string -> M unit := fun _ _ _ => mret tt.

End Sample.

(* ===================================================================== *)
(** ** Package utils: the helpers of its tests                            *)
(* ===================================================================== *)

(** The reader, the writer and the list comparison that the tests of
    package [utils] define for themselves. A byte slice is a list of
    bytes; an index outside it is a panic of the runtime. *)
Module UtilsTest.
Import Utils.

Definition indexOutOfRange : PanicValue := "index out of range".

Definition newline : ascii := Ascii.ascii_of_nat 10.

(** [p[i] = b] *)
Definition store (i : nat) (b : ascii) (p : list ascii) : option (list ascii) :=
  if decide (i < length p) then Some (<[i := b]> p) else None.

(** [testWriter.Write]: the bytes go to the variable [wrote], as a
    string; the result is [len(p), nil]. *)
Definition Write (p : list ascii) : string * nat :=
  (string_of_list_ascii p, length p).

Record testReader : Type := { toRead : string }.

(** The loop of [testReader.Read] from index [i], over the bytes of
    [toRead] that are left: the buffer as the loop leaves it, and whether
    it ended or panicked. *)
Fixpoint copyLoop (i : nat) (bytes : list ascii) (p : list ascii)
    : list ascii * Result unit :=
  match bytes with
  | [] => (p, Ok tt)
  | b :: bytes' =>
      match store i b p with
      | Some p' => copyLoop (S i) bytes' p'
      | None => (p, Panicked indexOutOfRange)
      end
  end.

(** [testReader.Read]: the buffer after the call, and [n] or the panic. *)
Definition Read (self : testReader) (p : list ascii) : list ascii * Result nat :=
  match copyLoop 0 (list_ascii_of_string (toRead self)) p with
  | (p1, Panicked r) => (p1, Panicked r)
  | (p1, Ok _) =>
      match store (String.length (toRead self)) newline p1 with
      | Some p2 => (p2, Ok (String.length (toRead self) + 1))
      | None => (p1, Panicked indexOutOfRange)
      end
  end.

(** The loop of [compareStringLists], [for i, str := range l1], from
    index [i] over the elements of [l1] that are left. *)
Fixpoint compareLoop (i : nat) (l1 l2 : list string) : Result bool :=
  match l1 with
  | [] => Ok true
  | str :: l1' =>
      match l2 !! i with
      | None => Panicked indexOutOfRange
      | Some x =>
          if negb (String.eqb str x) then Ok false
          else compareLoop (S i) l1' l2
      end
  end.

Definition compareStringLists (l1 l2 : list string) : Result bool :=
  if negb (Nat.eqb (length l1) (length l2)) then Ok false
  else compareLoop 0 l1 l2.

End UtilsTest.

(* ===================================================================== *)
(** ** Package session: more commands                                     *)
(* ===================================================================== *)

(** More cases of [processCommand]: the quick creation of exits, the
    colour mode, and the loop that asks for the name of an NPC. They fit
    [processCommand] as its remaining cases. *)
Module Commands.
Import Fmt Utils Database Model Session.

#[export] Instance ColorMode_eq_dec : EqDecision Utils.ColorMode.
Proof. solve_decision. Defined.

(** Modelled from the spec: [User.SetColorMode], a mutator of the [User]
    entity, which is outside the files at hand: it takes the write lock,
    compares, and commits only a real change. *)
Definition SetColorMode (cm : Utils.ColorMode) : Method User unit :=
  writing (
    self ← this;
    if decide (cm <> ColorMode self) then
      assign {| UserDb := UserDb self; ColorMode := cm |};;
      objectModified
    else mret tt).

(** What these cases use of [strings], of package [utils] and of package
    [model], taken as they come: [ValidateName] gives the message of the
    error, if there is one. *)
Class Ops : Type := {
  ToLower : string -> string;
  ValidateName : string -> option string;
  GetCharacterByName : World -> string -> option ptr
}.

(** The word a colour mode is set by, and the name it is shown with. *)
Definition modeWord (cm : Utils.ColorMode) : string :=
  match cm with
  | ColorModeNone => "none"
  | ColorModeLight => "light"
  | ColorModeDark => "dark"
  end.

Definition modeName (cm : Utils.ColorMode) : string :=
  match cm with
  | ColorModeNone => "None"
  | ColorModeLight => "Light"
  | ColorModeDark => "Dark"
  end.

(** The cases [/n] to [/sw]: the exit to enable in the room, the action,
    and the exit to enable in the room the action leads to. *)
Definition quickExit (command : string)
    : option (ExitDirection * string * ExitDirection) :=
  if String.eqb command "/n" then Some (DirectionNorth, "n", DirectionSouth)
  else if String.eqb command "/e" then Some (DirectionEast, "e", DirectionWest)
  else if String.eqb command "/s" then Some (DirectionSouth, "s", DirectionNorth)
  else if String.eqb command "/w" then Some (DirectionWest, "w", DirectionEast)
  else if String.eqb command "/u" then Some (DirectionUp, "u", DirectionDown)
  else if String.eqb command "/d" then Some (DirectionDown, "d", DirectionUp)
  else if String.eqb command "/ne" then Some (DirectionNorthEast, "ne", DirectionSouthWest)
  else if String.eqb command "/nw" then Some (DirectionNorthWest, "nw", DirectionSouthEast)
  else if String.eqb command "/se" then Some (DirectionSouthEast, "se", DirectionNorthWest)
  else if String.eqb command "/sw" then Some (DirectionSouthWest, "sw", DirectionNorthEast)
  else None.

Section Cases.
Context `{Fmt.Ops} `{Utils.Ops} `{Directions} `{Model.Ops} `{Rendering} `{Ops}.
Variable handleAction : string -> list string -> M unit.
Variable otherCommand : nat -> string -> list string -> M unit.

(** The body the ten cases share. *)
Definition quickCommand (q : ExitDirection * string * ExitDirection) : M unit :=
  let '(there, action, back) := q in
  s ← get;
  onRoom (room (session s)) (SetExitEnabled there true);;
  handleAction action [];;
  s ← get;
  onRoom (room (session s)) (SetExitEnabled back true).

(** The cases [colormode] and [cm]. *)
Definition colormodeCommand (args : list string) : M unit :=
  match args with
  | [] =>
      s ← get;
      cm ← onUser (user (session s)) GetColorMode;
      let message := "Current color mode is: " in
      let message :=
        match cm with
        | ColorModeNone => message +:+ "None"
        | ColorModeLight => message +:+ "Light"
        | ColorModeDark => message +:+ "Dark"
        end in
      printLine message []
  | [arg0] =>
      let mode := ToLower arg0 in
      s ← get;
      if String.eqb mode "none" then
        onUser (user (session s)) (SetColorMode ColorModeNone);;
        printLine "Color mode set to: None" []
      else if String.eqb mode "light" then
        onUser (user (session s)) (SetColorMode ColorModeLight);;
        printLine "Color mode set to: Light" []
      else if String.eqb mode "dark" then
        onUser (user (session s)) (SetColorMode ColorModeDark);;
        printLine "Color mode set to: Dark" []
      else printLine "Valid color modes are: None, Light, Dark" []
  | _ => printLine "Valid color modes are: None, Light, Dark" []
  end.

(** [getName], of the case [npc]. *)
Fixpoint getName (fuel : nat) : M string :=
  match fuel with
  | 0 => outOfFuel
  | S fuel' =>
      name ← getUserInput CleanUserInput "Desired NPC name: ";
      s ← get;
      let char := GetCharacterByName (world s) name in
      if String.eqb name "" then mret ""
      else
        match char with
        | Some _ =>
            printError "That name is unavailable" [];;
            getName fuel'
        | None =>
            match ValidateName name with
            | Some err =>
                printError err [];;
                getName fuel'
            | None => mret name
            end
        end
  end.

(** The cases above, as the remaining cases of [processCommand]. *)
Definition moreCommands (fuel : nat) (command : string) (args : list string) : M unit :=
  match quickExit command with
  | Some q => quickCommand q
  | None =>
      if (String.eqb command "colormode" || String.eqb command "cm")%bool
      then colormodeCommand args
      else otherCommand fuel command args
  end.

End Cases.

(** The inputs the reader makes of a list of reads in a mode, up to its
    first panic. *)
Fixpoint inputsRead `{Utils.Ops} (reqs : list Request) : list string :=
  match reqs with
  | [] => []
  | q :: reqs' =>
      match readInput (reqMode q) (reqRead q) with
      | Ok input => input :: inputsRead reqs'
      | Panicked _ => []
      end
  end.

(** The inputs a run of the reader hands over, in the order of the run. *)
Fixpoint handedOver (evs : list ReaderEvent) : list string :=
  match evs with
  | [] => []
  | Delivered _ input :: evs' => input :: handedOver evs'
  | _ :: evs' => handedOver evs'
  end.

(** What arrives in a number of turns: in each turn some events, then a
    line. *)
Definition turns (ts : list (list Event * string)) : list Arrival :=
  flat_map (fun t => map AEvent (fst t) ++ [AInput (Line (snd t))]) ts.

(** The entries of the menu of [toggleExitMenu]: the key, the label and
    the direction of each, in the order they are added. *)
Definition exitEntries : list (string * string * ExitDirection) :=
  [("n", "[N]orth: ", DirectionNorth);
   ("ne", "[NE]North East: ", DirectionNorthEast);
   ("e", "[E]ast: ", DirectionEast);
   ("se", "[SE]South East: ", DirectionSouthEast);
   ("s", "[S]outh: ", DirectionSouth);
   ("sw", "[SW]South West: ", DirectionSouthWest);
   ("w", "[W]est: ", DirectionWest);
   ("nw", "[NW]North West: ", DirectionNorthWest);
   ("u", "[U]p: ", DirectionUp);
   ("d", "[D]own: ", DirectionDown)].

(** The number of times a menu is printed in an output. *)
Definition isMenu (o : Output) : bool :=
  match o with OMenu _ _ => true | _ => false end.

Definition menusPrinted (o : list Output) : nat :=
  length (filter (fun x => isMenu x = true) o).


(** A run of [SetName] calls on an area, one after the other. *)
Fixpoint setNames (names : list string) : Method Area unit :=
  match names with
  | [] => mret tt
  | name :: names' => SetName name;; setNames names'
  end.

(** The number of names of a run that differ from the name before them,
    [current] being the name before the first. *)
Fixpoint changes (current : string) (names : list string) : nat :=
  match names with
  | [] => 0
  | name :: names' =>
      (if String.eqb name current then 0 else 1) + changes name names'
  end.

End Commands.

(* ===================================================================== *)
(** ** More of the small world                                            *)
(* ===================================================================== *)

(** An instance of the interface of the commands, and inputs to run the
    helpers of the tests, the reader and the commands on. *)
Module SampleMore.
Import Fmt Utils Database Model Session UtilsTest Commands Sample.

#[export] Instance commands : Commands.Ops := {|
  ToLower := lowerString;
  ValidateName := fun name =>
    if (String.length name <? 3)%nat then Some "Names must be at least 3 letters long"
    else None;
  GetCharacterByName := fun _ name => if String.eqb name "ann" then Some 1 else None
|}.

Definition greeting : testReader := {| toRead := "hi" |}.

Definition zeros (n : nat) : list ascii := replicate n Ascii.zero.

(** Two requests, the second in a mode the reader does not know. *)
Definition broken : list Request :=
  [atOnce "a";
   {| reqMode := 7%Z; reqRead := Line "b";
      elapsed := 0%N; overslept := 0%N; handover := 0%N; lag := 0%N |}].



(** A wrong choice, then [N], at a menu. *)
Definition wrong : list (list Event * string) := [([], "q")].

Definition choosing : State :=
  start (turns wrong ++ map AEvent chatter ++ AInput (Line "N") :: more).

(** A name that is taken, then a free one. *)
Definition naming : State :=
  start [AInput (Line "Ann"); AInput (Line "Bob")].

(** Section 1 of the editor, a title, and the way out. *)
Definition retitling : State :=
  start [AInput (Line "1"); AInput (Line "Great Hall"); AInput (Line "")].

End SampleMore.

(* ===================================================================== *)
(** ** The entity base: locks                                             *)
(* ===================================================================== *)

Module LockSpec.
Import Database.

Lemma replay_app (held : gmap string Held) (l1 l2 : list Effect) :
  replay held (l1 ++ l2)
  = match replay held l1 with Some held' => replay held' l2 | None => None end.
Proof.
  revert held. induction l1 as [|e l1 IH]; intros held; cbn; [reflexivity|].
  destruct (lockStep held e); [apply IH | reflexivity].
Qed.

(** An accessor takes the read lock when no lock is held, and leaves no
    lock held. *)
Lemma replay_read (id : string) : replay ∅ [EReadLock id; EReadUnlock id] = Some ∅.
Proof.
  cbn. rewrite lookup_empty, lookup_insert_eq.
  now rewrite delete_insert_eq, delete_empty.
Qed.

(** A mutator takes the write lock when no lock is held, commits, if it
    does, while it holds the lock, and leaves no lock held. *)
Lemma replay_write_commit (ty : ObjectType) (id : string) :
  replay ∅ [EWriteLock id; EObjectModified ty id; EWriteUnlock id] = Some ∅.
Proof.
  cbn. rewrite lookup_empty, !lookup_insert_eq.
  now rewrite delete_insert_eq, delete_empty.
Qed.

Lemma replay_write_plain (id : string) :
  replay ∅ [EWriteLock id; EWriteUnlock id] = Some ∅.
Proof.
  cbn. rewrite lookup_empty, lookup_insert_eq.
  now rewrite delete_insert_eq, delete_empty.
Qed.

Lemma replay_write (ty : ObjectType) (id : string) (unchanged : bool) :
  replay ∅ (EWriteLock id :: (if unchanged then [] else [EObjectModified ty id])
              ++ [EWriteUnlock id]) = Some ∅.
Proof.
  destruct unchanged; [apply replay_write_plain | apply replay_write_commit].
Qed.

(** A commit outside the write lock of its entity is not possible, and
    neither is taking a lock twice. *)
Lemma replay_rejects (ty : ObjectType) (id : string) :
  replay ∅ [EObjectModified ty id] = None /\
  replay ∅ [EWriteLock id; EReadLock id] = None /\
  replay ∅ [EWriteLock id; EWriteLock id] = None.
Proof.
  cbn. rewrite lookup_empty, !lookup_insert_eq. now repeat split.
Qed.

End LockSpec.

(* ===================================================================== *)
(** ** The entity base: Area                                              *)
(* ===================================================================== *)

Module AreaSpec.
Import Database Sample LockSpec.

Lemma SetName_unfold (name : string) (a : Area) (log : list Effect) :
  SetName name a log =
  if String.eqb name (Name a)
  then (tt, a, log ++ [EWriteLock (GetId a); EWriteUnlock (GetId a)])
  else (tt, Area_setName name a,
        log ++ [EWriteLock (GetId a); EObjectModified AreaType (GetId a);
                EWriteUnlock (GetId a)]).
Proof.
  unfold SetName. method_steps.
  destruct (String.eqb name (Name a)); method_steps.
  - now rewrite <- app_assoc.
  - now rewrite <- !app_assoc.
Qed.

Lemma GetName_unfold (a : Area) (log : list Effect) :
  GetName a log = (Name a, a, log ++ [EReadLock (GetId a); EReadUnlock (GetId a)]).
Proof. unfold GetName. method_steps. now rewrite <- app_assoc. Qed.

Lemma GetZoneId_unfold (a : Area) (log : list Effect) :
  GetZoneId a log = (ZoneId a, a, log ++ [EReadLock (GetId a); EReadUnlock (GetId a)]).
Proof. unfold GetZoneId. method_steps. now rewrite <- app_assoc. Qed.

(** C3. [SetName] with the name the area has takes and releases the write
    lock and nothing else: the area is returned as it was and the log has
    no commit; no lock is held afterwards. For any name, the number of
    commits is one when the name differs from the current one and zero
    when it is equal. *)
Theorem SetName_same_name_no_commit (a : Area) (log : list Effect) :
  SetName (Name a) a log
  = (tt, a, log ++ [EWriteLock (GetId a); EWriteUnlock (GetId a)]) /\
  after (run (SetName (Name a)) a) = a /\
  commits (effects (run (SetName (Name a)) a)) = 0 /\
  replay ∅ (effects (run (SetName (Name a)) a)) = Some ∅ /\
  forall name : string,
    commits (effects (run (SetName name) a))
    = if String.eqb name (Name a) then 0 else 1.
Proof.
  assert (Hsame : forall l, SetName (Name a) a l
            = (tt, a, l ++ [EWriteLock (GetId a); EWriteUnlock (GetId a)])).
  { intros l. rewrite SetName_unfold. now rewrite String.eqb_refl. }
  split; [apply Hsame|].
  unfold run. rewrite Hsame.
  split; [reflexivity|]. split; [reflexivity|].
  split; [apply (replay_write AreaType (GetId a) true)|].
  intros name. rewrite SetName_unfold.
  destruct (String.eqb name (Name a)); reflexivity.
Qed.

(** C8. [SetName] with a name that differs from the current one sets the
    [Name] field, commits once, between taking and releasing the write
    lock (the log replays on the locks, and leaves none held), and changes
    nothing else: the embedded object (the identity),
    the type and [ZoneId] are as before; [GetName] then returns the new
    name and [GetZoneId] the zone of before. *)
Theorem SetName_new_name (a : Area) (name : string) (log : list Effect) :
  name <> Name a ->
  SetName name a log
  = (tt, {| AreaDb := AreaDb a; Name := name; ZoneId := ZoneId a |},
     log ++ [EWriteLock (GetId a); EObjectModified AreaType (GetId a);
             EWriteUnlock (GetId a)]) /\
  commits (effects (run (SetName name) a)) = 1 /\
  replay ∅ (effects (run (SetName name) a)) = Some ∅ /\
  let a' := after (run (SetName name) a) in
  Name a' = name /\
  ZoneId a' = ZoneId a /\
  GetId a' = GetId a /\
  GetType a' = GetType a /\
  result (run GetName a') = name /\
  result (run GetZoneId a') = ZoneId a.
Proof.
  intros Hne.
  assert (Hb : String.eqb name (Name a) = false) by now apply String.eqb_neq.
  split.
  - rewrite SetName_unfold, Hb. reflexivity.
  - unfold run. rewrite SetName_unfold, Hb.
    split; [reflexivity|].
    split; [apply (replay_write AreaType (GetId a) false)|].
    cbn. rewrite GetName_unfold, GetZoneId_unfold. cbn. repeat split; reflexivity.
Qed.

Lemma SetName_new_name_witness :
  "den" <> Name cave /\
  SetName "den" cave []
  = (tt, {| AreaDb := {| Id := "a1" |}; Name := "den"; ZoneId := "z1" |},
     [EWriteLock "a1"; EObjectModified AreaType "a1"; EWriteUnlock "a1"]).
Proof.
  split; [discriminate|].
  apply (SetName_new_name cave "den" []). discriminate.
Defined.

End AreaSpec.

(* ===================================================================== *)
(** ** The reader: the throttle                                           *)
(* ===================================================================== *)

Module ReaderSpec.
Import Fmt Utils Session Sample.

Section Facts.
Context `{Utils.Ops}.

Open Scope Z_scope.

(** [time.Since(lastTime)], taken [e] nanoseconds after [lastTime], is
    below the delay when [e] is, and then it is [e]. *)
Lemma Since_elapsed (lastTime : Z) (e : N) :
  (Since (lastTime + Z.of_N e) lastTime <? delay) = (Z.of_N e <? delay) /\
  (Z.of_N e < delay -> Since (lastTime + Z.of_N e) lastTime = Z.of_N e).
Proof.
  unfold Since, Sub, delay, Millisecond, minDuration, maxDuration.
  replace (lastTime + Z.of_N e - lastTime) with (Z.of_N e) by lia.
  pose proof (N2Z.is_nonneg e) as Hnn.
  destruct (Z.ltb_spec (Z.of_N e) (- 2 ^ 63)) as [Hlt|_]; [lia|].
  destruct (Z.ltb_spec (2 ^ 63 - 1) (Z.of_N e)) as [Hbig|Hsmall].
  - split.
    + destruct (Z.ltb_spec (2 ^ 63 - 1) (200 * 1000000)) as [Hc|_]; [lia|].
      destruct (Z.ltb_spec (Z.of_N e) (200 * 1000000)); [lia|reflexivity].
    + lia.
  - split; [reflexivity|]. intros _. reflexivity.
Qed.

(** One turn of the loop: when the read ends less than the delay after
    [lastTime], the goroutine sleeps for the rest of the delay and hands
    the input over no sooner than the delay after [lastTime]. *)
Lemma readerLoop_turn (lastTime : Z) (q : Request) (reqs : list Request) :
  readerLoop lastTime (q :: reqs)
  = match readInput (reqMode q) (reqRead q) with
    | Panicked r =>
        [Forwarded (lastTime + Z.of_N (elapsed q) + Z.of_N (handover q)) r]
    | Ok input =>
        if Z.of_N (elapsed q) <? delay then
          let sent := lastTime + delay + Z.of_N (overslept q) + Z.of_N (handover q) in
          Slept (delay - Z.of_N (elapsed q))
            :: Delivered sent input
            :: readerLoop (sent + Z.of_N (lag q)) reqs
        else
          let sent := lastTime + Z.of_N (elapsed q) + Z.of_N (handover q) in
          Delivered sent input :: readerLoop (sent + Z.of_N (lag q)) reqs
    end.
Proof.
  cbn [readerLoop].
  destruct (readInput (reqMode q) (reqRead q)) as [input|r]; [|reflexivity].
  destruct (Since_elapsed lastTime (elapsed q)) as [Hlt Heq].
  rewrite Hlt.
  destruct (Z.ltb_spec (Z.of_N (elapsed q)) delay) as [Hsmall|Hbig].
  - rewrite (Heq Hsmall). cbn [app]. cbv zeta.
    replace (lastTime + Z.of_N (elapsed q) + (delay - Z.of_N (elapsed q))
             + Z.of_N (overslept q) + Z.of_N (handover q))
      with (lastTime + delay + Z.of_N (overslept q) + Z.of_N (handover q)) by lia.
    reflexivity.
  - reflexivity.
Qed.

(** The k-th input of a run is handed over at least k+1 delays after the
    [lastTime] the run starts from. *)
Lemma delivery_after (reqs : list Request) :
  forall (lastTime : Z) (k : nat) (t : Z),
    deliveries (readerLoop lastTime reqs) !! k = Some t ->
    lastTime + Z.of_nat (S k) * delay <= t.
Proof.
  induction reqs as [|q reqs IH]; intros lastTime k t Hk.
  - discriminate.
  - rewrite readerLoop_turn in Hk.
    pose proof (N2Z.is_nonneg (elapsed q)).
    pose proof (N2Z.is_nonneg (overslept q)).
    pose proof (N2Z.is_nonneg (handover q)).
    pose proof (N2Z.is_nonneg (lag q)).
    assert (Hd : 0 < delay) by reflexivity.
    destruct (readInput (reqMode q) (reqRead q)) as [input|r]; [|discriminate].
    destruct (Z.ltb_spec (Z.of_N (elapsed q)) delay) as [Hsmall|Hbig];
      cbn [deliveries] in Hk; cbv zeta in Hk;
      (destruct k as [|k];
       [ injection Hk as <-; lia
       | apply IH in Hk; lia ]).
Qed.

(** C2. Of two inputs the reader hands to the dispatcher, the later one
    is handed over at least 200ms after the earlier one for each input in
    between and itself: the next one no sooner than 200ms later, the last
    of n no sooner than (n-1) times 200ms after the first. In each turn,
    when the read ends less than 200ms after the last hand-over, the
    goroutine sleeps for the rest of the 200ms before it sends. *)
Theorem reader_throttle (start : Z) (reqs : list Request) (i j : nat) (t t' : Z) :
  (i <= j)%nat ->
  deliveries (reader start reqs) !! i = Some t ->
  deliveries (reader start reqs) !! j = Some t' ->
  delay = 200 * 1000000 /\
  t + Z.of_nat (j - i) * delay <= t' /\
  forall (lastTime : Z) (q : Request) (reqs' : list Request),
    readerLoop lastTime (q :: reqs')
    = match readInput (reqMode q) (reqRead q) with
      | Panicked r =>
          [Forwarded (lastTime + Z.of_N (elapsed q) + Z.of_N (handover q)) r]
      | Ok input =>
          if Z.of_N (elapsed q) <? delay then
            let sent := lastTime + delay + Z.of_N (overslept q) + Z.of_N (handover q) in
            Slept (delay - Z.of_N (elapsed q))
              :: Delivered sent input
              :: readerLoop (sent + Z.of_N (lag q)) reqs'
          else
            let sent := lastTime + Z.of_N (elapsed q) + Z.of_N (handover q) in
            Delivered sent input :: readerLoop (sent + Z.of_N (lag q)) reqs'
      end.
Proof.
  intros Hij Hi Hj.
  split; [reflexivity|]. split; [|apply readerLoop_turn].
  unfold reader in *. revert start i j Hij Hi Hj.
  induction reqs as [|q reqs IH]; intros start i j Hij Hi Hj.
  - discriminate.
  - rewrite readerLoop_turn in Hi, Hj.
    pose proof (N2Z.is_nonneg (lag q)).
    destruct (readInput (reqMode q) (reqRead q)) as [input|r]; [|discriminate].
    destruct (Z.ltb_spec (Z.of_N (elapsed q)) delay) as [Hsmall|Hbig];
      cbn [deliveries] in Hi, Hj; cbv zeta in Hi, Hj;
      (destruct i as [|i];
       [ injection Hi as <-;
         destruct j as [|j];
         [ injection Hj as <-; cbn; lia
         | apply delivery_after in Hj; rewrite Nat.sub_0_r; lia ]
       | destruct j as [|j]; [lia|];
         cbn [lookup list_lookup] in Hi, Hj;
         replace (S j - S i)%nat with (j - i)%nat by lia;
         eapply (IH _ i j); [lia | exact Hi | exact Hj] ]).
Qed.

End Facts.

Lemma reader_throttle_witness :
  (0 <= 4)%nat /\
  deliveries (reader 0 burst) !! 0%nat = Some 200000000%Z /\
  deliveries (reader 0 burst) !! 4%nat = Some 1000000000%Z /\
  (200000000 + Z.of_nat (4 - 0) * delay <= 1000000000)%Z.
Proof.
  split; [lia|]. split; [reflexivity|]. split; [reflexivity|].
  apply (reader_throttle 0 burst 0 4 200000000 1000000000);
    [lia | reflexivity | reflexivity].
Defined.

End ReaderSpec.

(* ===================================================================== *)
(** ** The dispatcher: events, input and menus                            *)
(* ===================================================================== *)

Module SessionSpec.
Import Fmt Utils Database Model Session Sample.

Lemma callRoom_GetId (p : ptr) (w : World) :
  callRoom p Room_GetId w
  = (GetId (rooms w p),
     set_dblog (dblog w ++ [EReadLock (GetId (rooms w p)); EReadUnlock (GetId (rooms w p))])
               (set_rooms (<[p := rooms w p]> (rooms w)) w)).
Proof. unfold callRoom, Room_GetId. method_steps. now rewrite <- app_assoc. Qed.

Lemma callUser_GetColorMode (p : ptr) (w : World) :
  callUser p GetColorMode w
  = (ColorMode (users w p),
     set_dblog (dblog w ++ [EReadLock (GetId (users w p)); EReadUnlock (GetId (users w p))])
               (set_users (<[p := users w p]> (users w)) w)).
Proof. unfold callUser, GetColorMode. method_steps. now rewrite <- app_assoc. Qed.

(** A panic is not caught by what follows it. *)
Lemma panic_propagates {A B} (m : M A) (k : A -> M B) (s s' : State) (v : PanicValue) :
  m s = (Panic v, s') -> (m ≫= k) s = (Panic v, s').
Proof. intros Hm. unfold mbind, M_bind. now rewrite Hm. Qed.

Lemma ret_continues {A B} (m : M A) (k : A -> M B) (s s' : State) (a : A) :
  m s = (Ret a, s') -> (m ≫= k) s = k a s'.
Proof. intros Hm. unfold mbind, M_bind. now rewrite Hm. Qed.

Lemma Unregister_gone (me : ptr) (w : World) : me ∉ mailboxes (Unregister me w).
Proof.
  unfold Unregister. cbn [mailboxes set_mailboxes].
  intros [_ Hout]%elem_of_difference. apply Hout. now apply elem_of_singleton.
Qed.

(** The accessor [GetColorMode], as the world sees it: the user is as
    before, and its read lock is in the log. *)
Lemma callUser_read (p : ptr) (w : World) :
  exists w' : World,
    callUser p GetColorMode w = (ColorMode (users w p), w') /\
    (forall q : ptr, users w' q = users w q) /\
    rooms w' = rooms w /\
    zones w' = zones w /\
    mailboxes w' = mailboxes w /\
    dblog w' = dblog w ++ [EReadLock (GetId (users w p)); EReadUnlock (GetId (users w p))].
Proof.
  eexists. rewrite callUser_GetColorMode. split; [reflexivity|].
  cbn [users rooms zones mailboxes dblog set_users set_dblog].
  repeat split. intros q. heap_cases; reflexivity.
Qed.

Section Prints.
Context `{Fmt.Ops} `{Utils.Ops} `{Rendering}.

(** [printLineColor] writes one line, the text [fmt.Sprintf] makes of the
    format, colorized in the mode of the user; of the world it changes the
    log, by the read lock of the user. *)
Lemma printLineColor_spec (color : Color) (line : string) (a : list string) (s : State) :
  exists s' : State,
    printLineColor color line a s = (Ret tt, s') /\
    out s'
    = out s ++ [OLine (Colorize (ColorMode (users (world s) (user (session s)))) color
                         (Sprintf line a))] /\
    session s' = session s /\
    pending s' = pending s /\
    (forall q : ptr, users (world s') q = users (world s) q) /\
    rooms (world s') = rooms (world s) /\
    zones (world s') = zones (world s) /\
    mailboxes (world s') = mailboxes (world s) /\
    dblog (world s')
    = dblog (world s) ++ [EReadLock (GetId (users (world s) (user (session s))));
                          EReadUnlock (GetId (users (world s) (user (session s))))].
Proof.
  unfold printLineColor. session_steps.
  destruct (callUser_read (user (session s)) (world s))
    as (w' & Hrun & Husers & Hrooms & Hzones & Hboxes & Hlog).
  rewrite Hrun. session_steps.
  eexists. split; [reflexivity|]. session_steps. now repeat split.
Qed.

(** The tables of the model are as before. *)
Lemma printLineColor_tables (color : Color) (line : string) (a : list string)
    (s s' : State) :
  printLineColor color line a s = (Ret tt, s') ->
  roomTable (world s') = roomTable (world s) /\
  zoneTable (world s') = zoneTable (world s) /\
  whereabouts (world s') = whereabouts (world s).
Proof.
  unfold printLineColor. session_steps. rewrite callUser_GetColorMode. session_steps.
  intros [= <-]. now repeat split.
Qed.

(** [printRoomEditor] and [printRoom] write one line, and change no room,
    no zone and no user; what they add to the log are read locks. *)
Lemma printRoomEditor_spec (s : State) :
  exists (w : World) (s' : State),
    printRoomEditor s = (Ret tt, s') /\
    out s'
    = out s ++ [OLine (Colorize (ColorMode (users (world s) (user (session s)))) ColorWhite
                         (Sprintf (Room_ToString w (room (session s)) EditMode
                                     (ColorMode (users (world s) (user (session s))))
                                     [] [] []) []))] /\
    (forall q : ptr, rooms w q = rooms (world s) q) /\
    session s' = session s /\
    pending s' = pending s /\
    (forall q : ptr, users (world s') q = users (world s) q) /\
    (forall q : ptr, rooms (world s') q = rooms (world s) q) /\
    zones (world s') = zones (world s) /\
    mailboxes (world s') = mailboxes (world s) /\
    writes (dblog (world s')) = writes (dblog (world s)).
Proof.
  unfold printRoomEditor. session_steps.
  destruct (callUser_read (user (session s)) (world s))
    as (w' & Hrun & Husers & Hrooms & Hzones & Hboxes & Hlog).
  rewrite Hrun. session_steps.
  match goal with
  | |- context [printLineColor ?c ?l ?a ?s0] =>
      destruct (printLineColor_spec c l a s0)
        as (s' & Hprint & Hout & Hsess & Hpend & Husers' & Hrooms' & Hzones' & Hboxes'
            & Hlog')
  end.
  cbn [session world out pending set_world] in *.
  exists w', s'. split; [exact Hprint|].
  rewrite Hout, Husers, Hrooms', Hzones', Hboxes', Hlog', Hlog, Hrooms.
  repeat split; try assumption.
  - intros q. now rewrite Husers', Husers.
  - unfold writes. rewrite !filter_app. cbn. now rewrite !app_nil_r.
Qed.

Lemma printRoom_spec (s : State) :
  exists (w : World) (s' : State),
    printRoom s = (Ret tt, s') /\
    out s'
    = out s ++ [OLine (Colorize (ColorMode (users (world s) (user (session s)))) ColorWhite
                         (Sprintf (Room_ToString w (room (session s)) ReadMode
                                     (ColorMode (users (world s) (user (session s))))
                                     (PlayersIn (world s) (room (session s))
                                        (player (session s)))
                                     (NpcsIn (world s) (room (session s)))
                                     (GetItems w (itemIds (rooms (world s)
                                                             (room (session s))))))
                                  []))] /\
    (forall q : ptr, rooms w q = rooms (world s) q) /\
    session s' = session s /\
    pending s' = pending s /\
    (forall q : ptr, users (world s') q = users (world s) q) /\
    (forall q : ptr, rooms (world s') q = rooms (world s) q) /\
    zones (world s') = zones (world s) /\
    mailboxes (world s') = mailboxes (world s) /\
    writes (dblog (world s')) = writes (dblog (world s)).
Proof.
  unfold printRoom. session_steps.
  destruct (callUser_read (user (session s)) (world s))
    as (w' & Hrun & Husers & Hrooms & Hzones & Hboxes & Hlog).
  rewrite Hrun. session_steps.
  unfold GetItemIds, callRoom. method_steps. session_steps. rewrite Hrooms.
  match goal with
  | |- context [printLineColor ?c ?l ?a ?s0] =>
      destruct (printLineColor_spec c l a s0)
        as (s' & Hprint & Hout & Hsess & Hpend & Husers' & Hrooms' & Hzones' & Hboxes'
            & Hlog')
  end.
  cbn [session world out pending set_world users rooms zones mailboxes dblog
       set_rooms set_dblog] in *.
  match type of Hprint with
  | printLineColor _ (Room_ToString ?w _ _ _ _ _ _) _ _ = _ => exists w, s'
  end.
  split; [exact Hprint|]. split; [now rewrite Hout, Husers|].
  cbn [rooms set_rooms set_dblog].
  split; [intros q; heap_cases; reflexivity|].
  split; [exact Hsess|]. split; [exact Hpend|].
  split; [intros q; now rewrite Husers', Husers|].
  split; [intros q; rewrite Hrooms'; heap_cases; reflexivity|].
  split; [now rewrite Hzones'|]. split; [now rewrite Hboxes'|].
  rewrite Hlog', Hlog. unfold writes.
  rewrite <- !app_assoc, !filter_app. cbn. now rewrite !app_nil_r.
Qed.

End Prints.

Section Facts.
Context `{Fmt.Ops} `{Utils.Ops} `{Directions} `{Model.Ops} `{Rendering}.
Variable handleAction : string -> list string -> M unit.
Variable otherCommand : nat -> string -> list string -> M unit.

(** [processEvent] returns the message of the event; of the state it
    changes the cached room, as the case may be, and the log of the locks
    taken to read the two ids. *)
Lemma processEvent_spec (event : Event) (s : State) :
  exists s' : State,
    processEvent event s = (Ret (ToString event (player (session s))), s') /\
    session s'
    = match event with
      | RoomUpdateEvent p =>
          if String.eqb (GetId (rooms (world s) p))
                        (GetId (rooms (world s) (room (session s))))
          then set_room p (session s)
          else session s
      | OtherEvent _ _ => session s
      end /\
    (forall q : ptr, rooms (world s') q = rooms (world s) q) /\
    users (world s') = users (world s) /\
    mailboxes (world s') = mailboxes (world s) /\
    out s' = out s /\
    pending s' = pending s.
Proof.
  unfold processEvent. destruct event as [p|kind text]; session_steps.
  - rewrite callRoom_GetId. session_steps.
    rewrite callRoom_GetId. session_steps.
    assert (Hq : <[p := rooms (world s) p]> (rooms (world s)) (room (session s))
                 = rooms (world s) (room (session s))) by (heap_cases; reflexivity).
    rewrite !Hq.
    destruct (String.eqb _ _); session_steps;
      (eexists; split; [reflexivity|]); session_steps;
      repeat split; try reflexivity; intros q; heap_cases; reflexivity.
  - eexists; split; [reflexivity|]. repeat split; reflexivity.
Qed.

Lemma processEvent_frame (event : Event) (s : State) :
  exists s' : State,
    processEvent event s = (Ret (ToString event (player (session s))), s') /\
    player (session s') = player (session s) /\
    user (session s') = user (session s) /\
    zone (session s') = zone (session s) /\
    (forall q : ptr, rooms (world s') q = rooms (world s) q) /\
    users (world s') = users (world s) /\
    mailboxes (world s') = mailboxes (world s) /\
    out s' = out s /\
    pending s' = pending s.
Proof.
  destruct (processEvent_spec event s) as (s' & Hrun & Hsess & Hrest).
  exists s'. split; [exact Hrun|].
  assert (Hp : player (session s') = player (session s) /\
               user (session s') = user (session s) /\
               zone (session s') = zone (session s)).
  { rewrite Hsess. destruct event as [p|kind text]; [|now repeat split].
    destruct (String.eqb _ _); now repeat split. }
  destruct Hp as (? & ? & ?). repeat split; try assumption; apply Hrest.
Qed.

(** The [select] loop takes the events that come before the message of
    the reader one by one, writes each of them and goes on waiting. *)
Lemma awaitInput_events (inputMode : userInputMode) (prompt : string)
    (events : list Event) :
  forall (tail : list Arrival) (s : State),
  exists s1 : State,
    awaitInput inputMode prompt (map AEvent events ++ tail) s
    = awaitInput inputMode prompt tail s1 /\
    out s1
    = out s ++ flat_map (rendered prompt (ColorMode (users (world s) (user (session s))))
                           (player (session s))) events /\
    player (session s1) = player (session s) /\
    user (session s1) = user (session s) /\
    zone (session s1) = zone (session s) /\
    (forall q : ptr, rooms (world s1) q = rooms (world s) q) /\
    (forall q : ptr, users (world s1) q = users (world s) q) /\
    mailboxes (world s1) = mailboxes (world s).
Proof.
  induction events as [|event events IH]; intros tail s.
  - exists s. cbn [map app flat_map]. rewrite app_nil_r. now repeat split.
  - cbn [map app flat_map awaitInput]. session_steps.
    destruct (processEvent_frame event (set_pending (map AEvent events ++ tail) s))
      as (s' & Hrun & Hplayer & Huser & Hzone & Hrooms & Husers & Hboxes & Hout & _).
    rewrite Hrun. cbn [session world out set_pending] in *.
    unfold rendered at 1.
    destruct (String.eqb (ToString event (player (session s))) "");
      cbn [negb]; session_steps.
    + destruct (IH tail s') as (s1 & Hgo & Hout1 & Hp1 & Hu1 & Hz1 & Hr1 & Hus1 & Hb1).
      exists s1. split; [exact Hgo|].
      rewrite Hout1, Hp1, Hu1, Hz1, Hb1, Hplayer, Huser, Husers, Hout.
      repeat split; try assumption.
      * intros q. now rewrite Hr1.
      * intros q. now rewrite Hus1, Husers.
    + match goal with
      | |- context [printLineColor ?c ?l ?a ?s2] =>
          destruct (printLineColor_spec c l a s2)
            as (s3 & Hprint & Hout3 & Hsess3 & _ & Husers3 & Hrooms3 & _ & Hboxes3 & _)
      end.
      rewrite Hprint. session_steps.
      match goal with
      | |- context [awaitInput inputMode prompt _ ?s2 = _] =>
          destruct (IH tail s2) as (s1 & Hgo & Hout1 & Hp1 & Hu1 & Hz1 & Hr1 & Hus1 & Hb1)
      end.
      cbn [session world out pending set_out] in *.
      exists s1. split; [exact Hgo|].
      rewrite Hout1, Hp1, Hu1, Hz1, Hb1, ?Hsess3, ?Husers3, Hout3, Hboxes3.
      rewrite ?Husers, ?Huser, ?Hplayer, ?Hzone, Hboxes, Hout.
      rewrite <- !app_assoc. cbn [app].
      repeat split; try assumption.
      * intros q. now rewrite Hr1, Hrooms3.
      * intros q. now rewrite Hus1, Husers3, Husers.
Qed.

(** [getUserInput] on events followed by the message of the reader: the
    events are written, and the call ends as the message says. *)
Lemma getUserInput_reader (inputMode : userInputMode) (prompt : string)
    (events : list Event) (rd : Read) (rest : list Arrival) (s : State) :
  pending s = map AEvent events ++ AInput rd :: rest ->
  exists s' : State,
    getUserInput inputMode prompt s
    = (match readerTurn inputMode rd with
       | OnUserInput input => Ret input
       | OnPanic r => Panic r
       end, s') /\
    pending s' = rest /\
    out s'
    = out s ++ flat_map (rendered prompt (ColorMode (users (world s) (user (session s))))
                           (player (session s))) events /\
    player (session s') = player (session s) /\
    user (session s') = user (session s) /\
    zone (session s') = zone (session s) /\
    (forall q : ptr, rooms (world s') q = rooms (world s) q) /\
    (forall q : ptr, users (world s') q = users (world s) q) /\
    mailboxes (world s') = mailboxes (world s).
Proof.
  intros Hpending. unfold getUserInput. session_steps. rewrite Hpending.
  destruct (awaitInput_events inputMode prompt events (AInput rd :: rest) s)
    as (s1 & Hgo & Hout & Hp & Hu & Hz & Hr & Hus & Hb).
  rewrite Hgo. cbn [awaitInput]. session_steps.
  exists (set_pending rest s1).
  split; [destruct (readerTurn inputMode rd); reflexivity|].
  now repeat split.
Qed.

(** With no message of the reader to come, [getUserInput] writes the
    events and goes on waiting. *)
Lemma getUserInput_waits (inputMode : userInputMode) (prompt : string)
    (events : list Event) (s : State) :
  pending s = map AEvent events ->
  exists s' : State,
    getUserInput inputMode prompt s = (Blocked, s') /\
    out s'
    = out s ++ flat_map (rendered prompt (ColorMode (users (world s) (user (session s))))
                           (player (session s))) events.
Proof.
  intros Hpending. unfold getUserInput. session_steps. rewrite Hpending.
  destruct (awaitInput_events inputMode prompt events [] s)
    as (s1 & Hgo & Hout & _).
  rewrite app_nil_r in Hgo. rewrite Hgo. cbn [awaitInput]. session_steps.
  exists s1. now split.
Qed.

(** One turn of the loop of [execMenu]: the menu is printed, the events
    are written with the prompt of the menu, and the choice of the reader
    is returned if the menu has it or it is empty; otherwise the loop goes
    on. *)
Lemma execMenu_turn (fuel : nat) (menu : Menu) (events : list Event) (rd : Read)
    (rest : list Arrival) (s : State) :
  pending s = map AEvent events ++ AInput rd :: rest ->
  exists s' : State,
    execMenu (S fuel) menu s
    = match readerTurn CleanUserInput rd with
      | OnUserInput choice =>
          if (HasAction menu choice || String.eqb choice "")%bool
          then (Ret (choice, GetData menu choice), s')
          else execMenu fuel menu s'
      | OnPanic r => (Panic r, s')
      end /\
    pending s' = rest /\
    out s'
    = out s ++ OMenu menu (ColorMode (users (world s) (user (session s))))
            :: flat_map (rendered (GetPrompt menu)
                           (ColorMode (users (world s) (user (session s))))
                           (player (session s))) events /\
    player (session s') = player (session s) /\
    mailboxes (world s') = mailboxes (world s).
Proof.
  intros Hpending. cbn [execMenu]. session_steps.
  rewrite callUser_GetColorMode. session_steps.
  match goal with
  | |- context [getUserInput _ _ ?s0] =>
      destruct (getUserInput_reader CleanUserInput (GetPrompt menu) events rd rest s0
                  Hpending)
        as (s' & Hrun & Hpend & Hout & Hp & _ & _ & _ & _ & Hb)
  end.
  cbn [session world out set_out set_world mailboxes set_dblog set_users users] in *.
  rewrite fn_lookup_insert in Hout.
  rewrite Hrun. exists s'.
  split.
  - destruct (readerTurn CleanUserInput rd) as [choice|r]; [|reflexivity].
    destruct (HasAction menu choice || String.eqb choice "")%bool; reflexivity.
  - rewrite Hout, <- app_assoc. now repeat split.
Qed.

(** C1. While [getUserInput] waits for a line, each event that arrives
    before the line and has a message is written: the line is cleared, the
    message printed and the prompt printed again; an event without message
    writes nothing. The message is printed by [printLine], which takes it
    as the format of [fmt.Sprintf]: the line written is the text
    [fmt.Sprintf] makes of the message without operands, in white in the
    colour mode of the user. The call then returns the very input the
    reader sent, and what arrives after it is left pending. In a menu the
    same holds with the prompt of the menu, after the menu is printed:
    [execMenu] returns the choice when the menu has it or it is empty, and
    starts over with the rest of the input otherwise. *)
Theorem getUserInput_events_then_input (inputMode : userInputMode) (prompt : string)
    (menu : Menu) (fuel : nat) (events : list Event) (rd : Read) (input : string)
    (rest : list Arrival) (s : State) :
  pending s = map AEvent events ++ AInput rd :: rest ->
  readerTurn inputMode rd = OnUserInput input ->
  let cm := ColorMode (users (world s) (user (session s))) in
  (forall (player : ptr) (event : Event),
     rendered prompt cm player event
     = if String.eqb (ToString event player) "" then []
       else [OClearLine;
             OLine (Colorize cm ColorWhite (Sprintf (ToString event player) []));
             OString prompt]) /\
  (exists s' : State,
     getUserInput inputMode prompt s = (Ret input, s') /\
     pending s' = rest /\
     out s' = out s ++ flat_map (rendered prompt cm (player (session s))) events) /\
  (inputMode = CleanUserInput ->
   exists s' : State,
     execMenu (S fuel) menu s
     = (if (HasAction menu input || String.eqb input "")%bool
        then (Ret (input, GetData menu input), s')
        else execMenu fuel menu s') /\
     pending s' = rest /\
     out s' = out s ++ OMenu menu cm
                    :: flat_map (rendered (GetPrompt menu) cm (player (session s))) events).
Proof.
  intros Hpending Hturn cm. split; [reflexivity|]. split.
  - destruct (getUserInput_reader inputMode prompt events rd rest s Hpending)
      as (s' & Hrun & Hpend & Hout & _).
    rewrite Hturn in Hrun. now exists s'.
  - intros ->.
    destruct (execMenu_turn fuel menu events rd rest s Hpending)
      as (s' & Hrun & Hpend & Hout & _).
    rewrite Hturn in Hrun. now exists s'.
Qed.

(** The first turn of the main loop. *)
Lemma mainLoop_turn (fuel : nat) (events : list Event) (rd : Read)
    (rest : list Arrival) (s : State) :
  pending s = map AEvent events ++ AInput rd :: rest ->
  exists s1 : State,
    mainLoop handleAction otherCommand (S fuel) s
    = match readerTurn RawUserInput rd with
      | OnUserInput input =>
          if (String.eqb input "" || String.eqb input "logout")%bool
          then (Ret tt, s1)
          else (dispatch handleAction otherCommand fuel input;;
                mainLoop handleAction otherCommand fuel) s1
      | OnPanic r => (Panic r, s1)
      end /\
    pending s1 = rest /\
    out s1
    = out s ++ flat_map (rendered prompt (ColorMode (users (world s) (user (session s))))
                           (player (session s))) events /\
    player (session s1) = player (session s) /\
    mailboxes (world s1) = mailboxes (world s).
Proof.
  intros Hpending. cbn [mainLoop]. session_steps.
  destruct (getUserInput_reader RawUserInput prompt events rd rest s Hpending)
    as (s1 & Hrun & Hpend & Hout & Hp & _ & _ & _ & _ & Hb).
  rewrite Hrun. exists s1. split; [|now repeat split].
  destruct (readerTurn RawUserInput rd) as [input|r]; [|reflexivity].
  destruct (String.eqb input "" || String.eqb input "logout")%bool; reflexivity.
Qed.

(** [Exec] up to the first input: the mailbox is registered, the welcome
    and the room are printed, one line each, the events are written; then
    the session ends, with the mailbox unregistered, or goes on with the
    input. *)
Lemma Exec_turn (fuel : nat) (events : list Event) (rd : Read)
    (rest : list Arrival) (s : State) :
  pending s = map AEvent events ++ AInput rd :: rest ->
  let me := player (session s) in
  let bye := fun s' : State => set_world (Unregister me (world s')) s' in
  exists s1 : State,
    Exec handleAction otherCommand (S fuel) s
    = match readerTurn RawUserInput rd with
      | OnUserInput input =>
          if (String.eqb input "" || String.eqb input "logout")%bool
          then (Ret tt, bye s1)
          else defer bye (dispatch handleAction otherCommand fuel input;;
                          mainLoop handleAction otherCommand fuel) s1
      | OnPanic r => (Panic r, bye s1)
      end /\
    pending s1 = rest /\
    (exists room : string,
       let cm := ColorMode (users (world s) (user (session s))) in
       out s1
       = out s ++ OLine (Colorize cm ColorWhite
                           (Sprintf ("Welcome, " +:+ PrettyName (Register me (world s)) me)
                                    []))
               :: OLine (Colorize cm ColorWhite (Sprintf room []))
               :: flat_map (rendered prompt cm me) events) /\
    mailboxes (world s1) = mailboxes (world s) ∪ {[me]}.
Proof.
  intros Hpending me bye. unfold Exec, defer. session_steps.
  match goal with
  | |- context [printLineColor ?c ?l ?a ?s0] =>
      destruct (printLineColor_spec c l a s0)
        as (sa & Hprint & Hout_a & Hsess_a & Hpend_a & Husers_a & _ & _ & Hboxes_a & _)
  end.
  rewrite Hprint. session_steps.
  destruct (printRoom_spec sa)
    as (w & sb & Hroom & Hout_b & _ & Hsess_b & Hpend_b & Husers_b & _ & _ & Hboxes_b & _).
  rewrite Hroom. session_steps.
  assert (Hpending_b : pending sb = map AEvent events ++ AInput rd :: rest)
    by now rewrite Hpend_b, Hpend_a.
  destruct (mainLoop_turn fuel events rd rest sb Hpending_b)
    as (s1 & Hrun & Hpend & Hout & Hp & Hb).
  cbn [session world out pending set_out set_world mailboxes users Register
       set_mailboxes] in *.
  rewrite Hrun. exists s1. split; [|split; [exact Hpend|split]].
  - destruct (readerTurn RawUserInput rd) as [input|r]; [|reflexivity].
    destruct (String.eqb input "" || String.eqb input "logout")%bool; reflexivity.
  - eexists. cbv zeta.
    rewrite Hout, Hout_b, Hout_a, !Hsess_b, !Hsess_a, !Husers_b, !Husers_a.
    rewrite <- !app_assoc. reflexivity.
  - now rewrite Hb, Hboxes_b, Hboxes_a.
Qed.

(** C4. At the main loop an input that is empty or is [logout] ends the
    session: [Exec] returns, and the mailbox of the player is no longer
    registered. Any other input is dispatched, as a command when it
    starts with a slash and as an action otherwise, and the loop goes on
    with what follows. *)
Theorem Exec_logout_or_dispatch (fuel : nat) (events : list Event) (rd : Read)
    (input : string) (rest : list Arrival) (s : State) :
  pending s = map AEvent events ++ AInput rd :: rest ->
  readerTurn RawUserInput rd = OnUserInput input ->
  let me := player (session s) in
  let bye := fun s' : State => set_world (Unregister me (world s')) s' in
  exists s1 : State,
    pending s1 = rest /\
    Exec handleAction otherCommand (S fuel) s
    = (if (String.eqb input "" || String.eqb input "logout")%bool
       then (Ret tt, bye s1)
       else defer bye
              ((if String.prefix "/" input
                then let '(command, args) := Argify (from1 input) in
                     processCommand otherCommand fuel command args
                else let '(command, args) := Argify input in
                     handleAction command args);;
               mainLoop handleAction otherCommand fuel) s1) /\
    me ∉ mailboxes (world (bye s1)).
Proof.
  intros Hpending Hturn me bye.
  destruct (Exec_turn fuel events rd rest s Hpending) as (s1 & Hrun & Hpend & _).
  rewrite Hturn in Hrun. exists s1.
  split; [exact Hpend|]. split; [exact Hrun|].
  apply Unregister_gone.
Qed.

(** C5. A panic of the reader, be it a failure of the read or a mode it
    does not know, is recovered in the goroutine and sent on
    [panicChannel], after which the goroutine ends. [getUserInput], when it
    receives it, panics with the same value; neither [execMenu] nor the
    main loop nor [Exec] catches it: [Exec] ends with that panic, takes no
    further input, and its deferred call unregisters the mailbox. *)
Theorem reader_panic_reraised (inputMode : userInputMode) (prompt : string)
    (menu : Menu) (fuel : nat) (events : list Event) (rd : Read) (r : PanicValue)
    (rest : list Arrival) (s : State) (lastTime : Z) (q : Request)
    (reqs : list Request) :
  pending s = map AEvent events ++ AInput rd :: rest ->
  readInput inputMode rd = Panicked r ->
  readerTurn inputMode rd = OnPanic r /\
  (reqMode q = inputMode -> reqRead q = rd ->
   readerLoop lastTime (q :: reqs)
   = [Forwarded (lastTime + Z.of_N (elapsed q) + Z.of_N (handover q))%Z r]) /\
  (exists s' : State,
     getUserInput inputMode prompt s = (Panic r, s') /\ pending s' = rest) /\
  (inputMode = CleanUserInput ->
   exists s' : State,
     execMenu (S fuel) menu s = (Panic r, s') /\ pending s' = rest) /\
  (inputMode = RawUserInput ->
   exists s' : State,
     Exec handleAction otherCommand (S fuel) s = (Panic r, s') /\
     pending s' = rest /\
     player (session s) ∉ mailboxes (world s')).
Proof.
  intros Hpending Hread.
  assert (Hturn : readerTurn inputMode rd = OnPanic r)
    by (unfold readerTurn; now rewrite Hread).
  split; [exact Hturn|]. split; [|split; [|split]].
  - intros Hmode Hrd. cbn [readerLoop]. now rewrite Hmode, Hrd, Hread.
  - destruct (getUserInput_reader inputMode prompt events rd rest s Hpending)
      as (s' & Hrun & Hpend & _).
    rewrite Hturn in Hrun. now exists s'.
  - intros ->.
    destruct (execMenu_turn fuel menu events rd rest s Hpending)
      as (s' & Hrun & Hpend & _).
    rewrite Hturn in Hrun. now exists s'.
  - intros ->.
    destruct (Exec_turn fuel events rd rest s Hpending) as (s1 & Hrun & Hpend & _).
    rewrite Hturn in Hrun.
    eexists. split; [exact Hrun|]. split; [exact Hpend|].
    apply Unregister_gone.
Qed.

(** C10. [GetRawUserInput] returns the line it reads as it is, except
    that it returns the empty string for [x] and for [X]; these are the
    six rows of its test. The main loop reads in raw mode, so a line that
    is just [x] gives it the empty input and ends the session. *)
Theorem GetRawUserInput_verbatim_but_x (line : string) (fuel : nat)
    (events : list Event) (rest : list Arrival) (s : State) :
  pending s = map AEvent events ++ AInput (Line "x") :: rest ->
  GetRawUserInput (Line line)
  = Ok (if (String.eqb line "x" || String.eqb line "X")%bool then "" else line) /\
  readInput RawUserInput (Line line) = GetRawUserInput (Line line) /\
  map (fun l => GetRawUserInput (Line l))
      ["Test1"; "TEST2"; " test3 "; tab +:+ "TeSt4" +:+ tab; "x"; "X"]
  = map Ok ["Test1"; "TEST2"; " test3 "; tab +:+ "TeSt4" +:+ tab; ""; ""] /\
  exists s' : State,
    Exec handleAction otherCommand (S fuel) s = (Ret tt, s') /\
    pending s' = rest /\
    player (session s) ∉ mailboxes (world s').
Proof.
  intros Hpending.
  split; [|split; [|split]].
  - cbn [GetRawUserInput].
    destruct (String.eqb line "x" || String.eqb line "X")%bool; reflexivity.
  - reflexivity.
  - reflexivity.
  - destruct (Exec_turn fuel events (Line "x") rest s Hpending)
      as (s1 & Hrun & Hpend & _).
    cbn in Hrun. eexists. split; [exact Hrun|]. split; [exact Hpend|].
    apply Unregister_gone.
Qed.

(** C9. [processEvent] replaces the cached room by the room of the event
    when the event is a [RoomUpdateEvent] and the id of its room is the id
    of the cached room, and only then: for a [RoomUpdateEvent] of a room
    with another id and for an event of any other type the session is as
    before. The cached zone is never changed. *)
Theorem processEvent_room_cache (event : Event) (s : State) :
  exists s' : State,
    processEvent event s = (Ret (ToString event (player (session s))), s') /\
    session s'
    = match event with
      | RoomUpdateEvent p =>
          if String.eqb (GetId (rooms (world s) p))
                        (GetId (rooms (world s) (room (session s))))
          then mkSession (user (session s)) (player (session s)) p (zone (session s))
          else session s
      | OtherEvent _ _ => session s
      end /\
    zone (session s') = zone (session s).
Proof.
  destruct (processEvent_spec event s) as (s' & Hrun & Hsess & _).
  exists s'. split; [exact Hrun|]. split; [exact Hsess|].
  rewrite Hsess. destruct event as [p|kind text]; [|reflexivity].
  destruct (String.eqb _ _); reflexivity.
Qed.

End Facts.

Lemma getUserInput_events_then_input_witness :
  pending (typing "N") = map AEvent chatter ++ AInput (Line "N") :: more /\
  readerTurn CleanUserInput (Line "N") = OnUserInput "n" /\
  (exists s' : State,
     getUserInput CleanUserInput "> " (typing "N") = (Ret "n", s') /\
     pending s' = more /\
     out s' = [OClearLine; OLine "Bob says hi"; OString "> ";
               OClearLine; OLine "Sale: 50%!o(MISSING)ff"; OString "> "]) /\
  (exists s' : State,
     execMenu 1 exitMenu (typing "N") = (Ret ("n", ""), s') /\
     pending s' = more /\
     out s' = [OMenu exitMenu ColorModeNone;
               OClearLine; OLine "Bob says hi"; OString "> ";
               OClearLine; OLine "Sale: 50%!o(MISSING)ff"; OString "> "]).
Proof.
  split; [reflexivity|]. split; [reflexivity|].
  destruct (getUserInput_events_then_input CleanUserInput "> " exitMenu 0 chatter
              (Line "N") "n" more (typing "N") ltac:(reflexivity) ltac:(reflexivity))
    as (_ & Hget & Hmenu).
  split; [exact Hget | exact (Hmenu eq_refl)].
Defined.

Lemma Exec_logout_or_dispatch_witness :
  pending (typing "logout") = map AEvent chatter ++ AInput (Line "logout") :: more /\
  readerTurn RawUserInput (Line "logout") = OnUserInput "logout" /\
  exists s' : State,
    Exec noAction noCommand 1 (typing "logout") = (Ret tt, s') /\
    pending s' = more /\
    1 ∉ mailboxes (world s').
Proof.
  split; [reflexivity|]. split; [reflexivity|].
  destruct (Exec_logout_or_dispatch noAction noCommand 0 chatter (Line "logout")
              "logout" more (typing "logout") ltac:(reflexivity) ltac:(reflexivity))
    as (s1 & Hpend & Hrun & Hgone).
  eexists. split; [exact Hrun|]. split; [exact Hpend | exact Hgone].
Defined.

Lemma reader_panic_reraised_witness :
  pending (failing "EOF") = map AEvent chatter ++ AInput (Failure "EOF") :: more /\
  readInput RawUserInput (Failure "EOF") = Panicked "EOF" /\
  readerLoop 0 [{| reqMode := RawUserInput; reqRead := Failure "EOF";
                   elapsed := 7; overslept := 0; handover := 2; lag := 0 |}]
  = [Forwarded 9 "EOF"] /\
  exists s' : State,
    Exec noAction noCommand 1 (failing "EOF") = (Panic "EOF", s') /\
    pending s' = more /\
    1 ∉ mailboxes (world s').
Proof.
  split; [reflexivity|]. split; [reflexivity|].
  destruct (reader_panic_reraised noAction noCommand RawUserInput "> " exitMenu 0
              chatter (Failure "EOF") "EOF" more (failing "EOF") 0
              {| reqMode := RawUserInput; reqRead := Failure "EOF";
                 elapsed := 7; overslept := 0; handover := 2; lag := 0 |} []
              ltac:(reflexivity) ltac:(reflexivity))
    as (_ & Hloop & _ & _ & Hexec).
  split; [exact (Hloop eq_refl eq_refl) | exact (Hexec eq_refl)].
Defined.

Lemma GetRawUserInput_verbatim_but_x_witness :
  pending (typing "x") = map AEvent chatter ++ AInput (Line "x") :: more /\
  GetRawUserInput (Line " Look North ") = Ok " Look North " /\
  exists s' : State,
    Exec noAction noCommand 1 (typing "x") = (Ret tt, s') /\
    pending s' = more /\
    1 ∉ mailboxes (world s').
Proof.
  split; [reflexivity|].
  destruct (GetRawUserInput_verbatim_but_x noAction noCommand " Look North " 0
              chatter more (typing "x") ltac:(reflexivity))
    as (Hraw & _ & _ & Hexec).
  split; [exact Hraw | exact Hexec].
Defined.

End SessionSpec.

(* ===================================================================== *)
(** ** The exit editor                                                    *)
(* ===================================================================== *)

Module ExitSpec.
Import Fmt Utils Database Model Session Sample LockSpec.

Lemma callRoom_reading {A} (f : Room -> A) (p : ptr) (w : World) :
  callRoom p (reading f) w
  = (f (rooms w p),
     set_dblog (dblog w ++ [EReadLock (GetId (rooms w p)); EReadUnlock (GetId (rooms w p))])
               (set_rooms (<[p := rooms w p]> (rooms w)) w)).
Proof. unfold callRoom. method_steps. now rewrite <- app_assoc. Qed.

(** The room after [SetExitEnabled]. *)
Lemma SetExitEnabled_unfold (dir : ExitDirection) (enabled : bool) (r : Room)
    (log : list Effect) :
  exists r' : Room,
    SetExitEnabled dir enabled r log
    = (tt, r',
       log ++ EWriteLock (GetId r)
           :: (if Bool.eqb enabled (hasExit r dir) then []
               else [EObjectModified RoomType (GetId r)])
           ++ [EWriteUnlock (GetId r)]) /\
    hasExit r' dir = enabled /\
    (forall dir' : ExitDirection, dir' <> dir -> hasExit r' dir' = hasExit r dir') /\
    RoomDb r' = RoomDb r /\
    RoomZoneId r' = RoomZoneId r /\
    Title r' = Title r /\
    Description r' = Description r /\
    Location r' = Location r.
Proof.
  unfold SetExitEnabled. method_steps.
  destruct (Bool.eqb enabled (hasExit r dir)) eqn:Heq; method_steps.
  - exists r. split; [now rewrite <- app_assoc|].
    apply Bool.eqb_prop in Heq. now repeat split.
  - eexists. split; [now rewrite <- !app_assoc|].
    apply Bool.eqb_false_iff in Heq.
    unfold hasExit in *. cbn [Exits Room_setExits RoomDb RoomZoneId Title Description Location].
    split; [|split; [|now repeat split]].
    + destruct enabled.
      * apply bool_decide_eq_true, elem_of_union. right. now apply elem_of_singleton.
      * apply bool_decide_eq_false. intros [_ Hout]%elem_of_difference.
        apply Hout. now apply elem_of_singleton.
    + intros dir' Hne. apply bool_decide_ext. destruct enabled.
      * rewrite elem_of_union, elem_of_singleton. tauto.
      * rewrite elem_of_difference, elem_of_singleton. tauto.
Qed.

(** The locks of the first half of a toggle: read, write with its
    commit, read, one after the other on the same room. *)
Lemma replay_toggle (id : string) :
  replay ∅ [EReadLock id; EReadUnlock id;
            EWriteLock id; EObjectModified RoomType id; EWriteUnlock id;
            EReadLock id; EReadUnlock id] = Some ∅.
Proof.
  change (replay ∅ ([EReadLock id; EReadUnlock id]
                    ++ [EWriteLock id; EObjectModified RoomType id; EWriteUnlock id]
                    ++ [EReadLock id; EReadUnlock id]) = Some ∅).
  rewrite replay_app, replay_read, replay_app, replay_write_commit.
  apply replay_read.
Qed.

Lemma callRoom_read {A} (f : Room -> A) (p : ptr) (w : World) :
  exists w' : World,
    callRoom p (reading f) w = (f (rooms w p), w') /\
    (forall q : ptr, rooms w' q = rooms w q) /\
    dblog w'
    = dblog w ++ [EReadLock (GetId (rooms w p)); EReadUnlock (GetId (rooms w p))].
Proof.
  eexists. rewrite callRoom_reading. split; [reflexivity|].
  cbn [rooms dblog set_rooms set_dblog]. split; [|reflexivity].
  intros q. heap_cases; reflexivity.
Qed.

Lemma callRoom_SetExitEnabled (dir : ExitDirection) (enabled : bool) (p : ptr)
    (w : World) :
  exists w' : World,
    callRoom p (SetExitEnabled dir enabled) w = (tt, w') /\
    hasExit (rooms w' p) dir = enabled /\
    (forall dir' : ExitDirection, dir' <> dir ->
       hasExit (rooms w' p) dir' = hasExit (rooms w p) dir') /\
    (forall q : ptr, q <> p -> rooms w' q = rooms w q) /\
    GetId (rooms w' p) = GetId (rooms w p) /\
    Location (rooms w' p) = Location (rooms w p) /\
    dblog w'
    = dblog w ++ EWriteLock (GetId (rooms w p))
        :: (if Bool.eqb enabled (hasExit (rooms w p) dir) then []
            else [EObjectModified RoomType (GetId (rooms w p))])
        ++ [EWriteUnlock (GetId (rooms w p))].
Proof.
  destruct (SetExitEnabled_unfold dir enabled (rooms w p) (dblog w))
    as (r' & Hrun & Hhas & Hothers & Hdb & _ & _ & _ & Hloc).
  eexists. unfold callRoom. rewrite Hrun. split; [reflexivity|].
  cbn [rooms dblog set_rooms set_dblog]. rewrite fn_lookup_insert.
  repeat split; try assumption.
  - intros q Hq. now rewrite fn_lookup_insert_ne.
  - unfold GetId. cbn [dbObject Room_Entity]. now rewrite Hdb.
Qed.

Section Facts.
Context `{Fmt.Ops} `{Utils.Ops} `{Directions} `{Model.Ops} `{Rendering}.

(** C6. Toggling the exit of the current room in a direction sets that
    exit to the new state, under the write lock of the room and with one
    commit. If the model has a room at the next location in that direction
    in the zone of the session, the exit of that room in the opposite
    direction is then set to the same state, under the write lock of that
    room, after the lock of the current room is released; no other room is
    changed. If there is no such room, the current room is the only one
    changed. What the toggle adds to the log replays on the locks: each
    lock is taken when none is held and is released before the next. *)
Theorem toggleExit_both_rooms (direction : ExitDirection) (s : State) :
  direction <> DirectionNone ->
  let here := room (session s) in
  let id := GetId (rooms (world s) here) in
  let enable := negb (hasExit (rooms (world s) here) direction) in
  exists (w1 : World) (s' : State),
    toggleExit direction s = (Ret tt, s') /\
    session s' = session s /\ out s' = out s /\ pending s' = pending s /\
    hasExit (rooms w1 here) direction = enable /\
    (forall p : ptr, p <> here -> rooms w1 p = rooms (world s) p) /\
    dblog w1
    = dblog (world s)
      ++ [EReadLock id; EReadUnlock id;
          EWriteLock id; EObjectModified RoomType id; EWriteUnlock id;
          EReadLock id; EReadUnlock id] /\
    match GetRoomByLocation w1 (nextLocation (rooms w1 here) direction)
            (zone (session s)) with
    | None => world s' = w1
    | Some other =>
        let id' := GetId (rooms w1 other) in
        hasExit (rooms (world s') other) (Opposite direction) = enable /\
        (forall p : ptr, p <> other -> rooms (world s') p = rooms w1 p) /\
        dblog (world s')
        = dblog w1
          ++ EWriteLock id'
             :: (if Bool.eqb enable (hasExit (rooms w1 other) (Opposite direction))
                 then [] else [EObjectModified RoomType id'])
             ++ [EWriteUnlock id']
    end /\
    exists delta : list Effect,
      dblog (world s') = dblog (world s) ++ delta /\
      replay ∅ delta = Some ∅.
Proof.
  intros Hdir here id enable.
  unfold toggleExit.
  destruct (decide (direction <> DirectionNone)) as [_|Hno]; [|contradiction].
  session_steps. unfold HasExit, NextLocation.
  destruct (callRoom_read (fun r => hasExit r direction) here (world s))
    as (wa & Ha & Hrooms_a & Hlog_a).
  fold here. rewrite Ha. session_steps. fold enable.
  destruct (callRoom_SetExitEnabled direction enable here wa)
    as (wb & Hb & Hhas_b & _ & Hrooms_b & Hid_b & _ & Hlog_b).
  rewrite Hb. session_steps.
  destruct (callRoom_read (fun r => nextLocation r direction) here wb)
    as (w1 & H1' & Hrooms_1 & Hlog_1).
  rewrite H1'. session_steps.
  exists w1.
  assert (Hnext : nextLocation (rooms wb here) direction
                  = nextLocation (rooms w1 here) direction) by now rewrite Hrooms_1.
  rewrite Hnext.
  assert (Hfirst : hasExit (rooms w1 here) direction = enable) by now rewrite Hrooms_1.
  assert (Hframe : forall p : ptr, p <> here -> rooms w1 p = rooms (world s) p).
  { intros p Hp. now rewrite Hrooms_1, Hrooms_b, Hrooms_a. }
  assert (Hlog : dblog w1
    = dblog (world s)
      ++ [EReadLock id; EReadUnlock id;
          EWriteLock id; EObjectModified RoomType id; EWriteUnlock id;
          EReadLock id; EReadUnlock id]).
  { rewrite Hlog_1, Hlog_b, Hlog_a, Hid_b, !Hrooms_a. fold id.
    replace (Bool.eqb enable (hasExit (rooms (world s) here) direction)) with false
      by (unfold enable; now destruct (hasExit _ _)).
    rewrite <- !app_assoc. reflexivity. }
  destruct (GetRoomByLocation w1 _ (zone (session s))) as [other|] eqn:Hother;
    session_steps.
  - destruct (callRoom_SetExitEnabled (Opposite direction) enable other w1)
      as (w2 & H2' & Hhas_2 & _ & Hrooms_2 & _ & _ & Hlog_2).
    rewrite H2'. session_steps.
    eexists. split; [reflexivity|]. session_steps.
    repeat (split; [first [assumption | reflexivity]|]).
    split; [repeat split; assumption|].
    eexists. split.
    + rewrite Hlog_2, Hlog, <- app_assoc. reflexivity.
    + rewrite replay_app, replay_toggle. apply replay_write.
  - eexists. split; [reflexivity|]. session_steps.
    repeat (split; [first [assumption | reflexivity]|]).
    eexists. split; [exact Hlog | apply replay_toggle].
Qed.
End Facts.

Lemma toggleExit_both_rooms_witness :
  DirectionNorth <> DirectionNone /\
  exists (w1 : World) (s' : State),
    toggleExit DirectionNorth (start []) = (Ret tt, s') /\
    hasExit (rooms w1 1) DirectionNorth = true /\
    dblog w1
    = [EReadLock "r1"; EReadUnlock "r1";
       EWriteLock "r1"; EObjectModified RoomType "r1"; EWriteUnlock "r1";
       EReadLock "r1"; EReadUnlock "r1"].
Proof.
  split; [discriminate|].
  destruct (toggleExit_both_rooms DirectionNorth (start []) ltac:(discriminate))
    as (w1 & s' & Hrun & _ & _ & _ & Hhas & _ & Hlog & _ & _).
  exists w1, s'. split; [exact Hrun|]. split; [exact Hhas | exact Hlog].
Defined.

(** In the sample world the yard is north of the hall: the toggle opens
    the hall to the north and the yard to the south, one room after the
    other. *)
Example toggleExit_hall_and_yard :
  let r := toggleExit DirectionNorth (start []) in
  fst r = Ret tt /\
  elements (Exits (rooms (world (snd r)) 1)) = [DirectionNorth] /\
  elements (Exits (rooms (world (snd r)) 2)) = [DirectionSouth] /\
  dblog (world (snd r))
  = [EReadLock "r1"; EReadUnlock "r1";
     EWriteLock "r1"; EObjectModified RoomType "r1"; EWriteUnlock "r1";
     EReadLock "r1"; EReadUnlock "r1";
     EWriteLock "r2"; EObjectModified RoomType "r2"; EWriteUnlock "r2"].
Proof. vm_compute. repeat split; reflexivity. Qed.

End ExitSpec.

(* ===================================================================== *)
(** ** The zone command                                                   *)
(* ===================================================================== *)

Module ZoneSpec.
Import Fmt Utils Database Model Session Sample.

Section Facts.
Context `{Fmt.Ops} `{Utils.Ops} `{Directions} `{Model.Ops} `{Rendering}.

(** The name [/zone new] and [/zone rename] look up is their first
    argument, the word [new] or [rename] itself: when the model has no
    zone of that name the zone is created, whatever zones there are with
    the name asked for. *)
Lemma zoneCommand_new_lookup (name : string) (s : State) :
  zoneCommand ["new"; name] s
  = match GetZoneByName (world s) "new" with
    | Some _ => printError "A zone with that name already exists" [] s
    | None =>
        (newZone ← inWorld (CreateZone name);
         newRoom ← inWorld (CreateRoom newZone);
         inWorld (fun w => (tt, MoveCharacterToRoom (player (session s)) newRoom w));;
         update (fun s => set_session (set_zone newZone (session s)) s);;
         update (fun s => set_session (set_room newRoom (session s)) s);;
         printRoom) s
    end.
Proof.
  unfold zoneCommand. cbn [String.eqb Ascii.eqb Bool.eqb].
  cbv beta iota delta [mbind M_bind get].
  destruct (GetZoneByName (world s) "new"); reflexivity.
Qed.

End Facts.

(** C7, on the code. In the sample world, where the zone [town] exists,
    [/zone new town] is not rejected: no error is written, a second zone
    of the name [town] is created with a room, the player is moved into
    it, and the one line written is the new room, as [printRoom] prints
    it. In the same way [/zone rename town], given in the zone
    [port], renames that zone to [town]. *)
Theorem zone_name_check_uses_keyword :
  GetZoneByName w0 "town" = Some 1 /\
  (let r := zoneCommand ["new"; "town"] (start []) in
   fst r = Ret tt /\
   out (snd r) = [OLine "r3 The Void"] /\
   zoneNames (snd r) = ["town"; "town"] /\
   session (snd r) = {| user := 1; player := 1; room := 3; zone := 2 |} /\
   whereabouts (world (snd r)) !! 1 = Some 3) /\
  (zoneNames inPort = ["town"; "port"] /\
   let r := zoneCommand ["rename"; "town"] inPort in
   fst r = Ret tt /\
   out (snd r) = [] /\
   zoneNames (snd r) = ["town"; "town"]).
Proof. vm_compute. repeat split; reflexivity. Qed.

End ZoneSpec.

(* ===================================================================== *)
(** ** More on Area                                                       *)
(* ===================================================================== *)

Module AreaMore.
Import Database Commands LockSpec AreaSpec.

Lemma commits_app (l1 l2 : list Effect) :
  commits (l1 ++ l2) = commits l1 + commits l2.
Proof. unfold commits. now rewrite filter_app, length_app. Qed.

(** X1. Whatever name [SetName] is given, the name the area had or
    another, [GetName] returns that name afterwards and [GetZoneId] the
    zone of before; the two accessors leave the area as it is, commit
    nothing, and take and release the read lock only: the log of each is
    the read lock of the area and its release, and nothing else. *)
Theorem SetName_GetName_round_trip (a : Area) (name : string) :
  let a' := after (run (SetName name) a) in
  result (run GetName a') = name /\
  result (run GetZoneId a') = ZoneId a /\
  GetId a' = GetId a /\
  after (run GetName a') = a' /\
  after (run GetZoneId a') = a' /\
  effects (run GetName a') = [EReadLock (GetId a); EReadUnlock (GetId a)] /\
  effects (run GetZoneId a') = [EReadLock (GetId a); EReadUnlock (GetId a)] /\
  commits (effects (run GetName a')) = 0 /\
  commits (effects (run GetZoneId a')) = 0 /\
  replay ∅ (effects (run GetName a')) = Some ∅ /\
  replay ∅ (effects (run GetZoneId a')) = Some ∅.
Proof.
  unfold run. rewrite SetName_unfold.
  destruct (String.eqb name (Name a)) eqn:Heq; cbn [after fst snd];
    rewrite GetName_unfold, GetZoneId_unfold; cbn [result effects after fst snd app].
  - apply String.eqb_eq in Heq. subst name.
    repeat split; try reflexivity; apply replay_read.
  - repeat split; try reflexivity; apply replay_read.
Qed.

Lemma last_cons {A} (l : list A) (x d : A) : List.last (x :: l) d = List.last l x.
Proof.
  revert x d. induction l as [|y l IH]; intros x d; [reflexivity|].
  change (List.last (x :: y :: l) d) with (List.last (y :: l) d).
  now rewrite !IH.
Qed.

(** A run of [SetName] calls: the area it leaves and what it adds to the
    log. *)
Lemma setNames_run (names : list string) :
  forall (a : Area) (log : list Effect),
  exists delta : list Effect,
    setNames names a log
    = (tt, {| AreaDb := AreaDb a; Name := List.last names (Name a); ZoneId := ZoneId a |},
       log ++ delta) /\
    commits delta = changes (Name a) names /\
    replay ∅ delta = Some ∅.
Proof.
  induction names as [|name names IH]; intros a log.
  - exists []. cbn. rewrite app_nil_r. destruct a. now repeat split.
  - cbn [setNames]. cbv beta iota delta [mbind Method_bind].
    rewrite SetName_unfold.
    destruct (String.eqb name (Name a)) eqn:Heq.
    + apply String.eqb_eq in Heq. subst name.
      destruct (IH a (log ++ [EWriteLock (GetId a); EWriteUnlock (GetId a)]))
        as (delta & Hrun & Hcommits & Hreplay).
      rewrite Hrun.
      exists ([EWriteLock (GetId a); EWriteUnlock (GetId a)] ++ delta).
      split; [|split].
      * now rewrite <- app_assoc, last_cons.
      * rewrite commits_app, Hcommits. cbn [changes].
        now rewrite String.eqb_refl.
      * now rewrite replay_app, replay_write_plain.
    + destruct (IH (Area_setName name a)
                  (log ++ [EWriteLock (GetId a); EObjectModified AreaType (GetId a);
                           EWriteUnlock (GetId a)]))
        as (delta & Hrun & Hcommits & Hreplay).
      rewrite Hrun.
      exists ([EWriteLock (GetId a); EObjectModified AreaType (GetId a);
               EWriteUnlock (GetId a)] ++ delta).
      split; [|split].
      * rewrite <- app_assoc, last_cons. reflexivity.
      * rewrite commits_app, Hcommits. cbn [changes Area_setName Name].
        now rewrite Heq.
      * now rewrite replay_app, replay_write_commit.
Qed.

(** X2. A run of [SetName] calls on an area commits once for each name
    that differs from the name the area has when the call is made, and
    not for the others: setting the same name again, or setting the name
    the area was created with, costs no commit. The area ends with the
    last name of the run, its identity and zone as before, and no lock is
    left held. *)
Theorem setNames_commits_changes (a : Area) (names : list string) :
  let r := run (setNames names) a in
  commits (effects r) = changes (Name a) names /\
  Name (after r) = List.last names (Name a) /\
  ZoneId (after r) = ZoneId a /\
  GetId (after r) = GetId a /\
  replay ∅ (effects r) = Some ∅.
Proof.
  unfold run. destruct (setNames_run names a []) as (delta & Hrun & Hcommits & Hreplay).
  rewrite Hrun. cbn [effects after fst snd app]. now repeat split.
Qed.

End AreaMore.

(* ===================================================================== *)
(** ** The helpers of the tests of utils                                  *)
(* ===================================================================== *)

Module UtilsTestSpec.
Import Fmt Utils UtilsTest Sample SampleMore.

Lemma compareLoop_drop (l1 : list string) :
  forall (i : nat) (l2 : list string),
    length l2 = i + length l1 ->
    compareLoop i l1 l2 = Ok (bool_decide (l1 = drop i l2)).
Proof.
  induction l1 as [|str l1 IH]; intros i l2 Hlen; cbn [compareLoop length] in *.
  - rewrite drop_ge by lia. reflexivity.
  - destruct (lookup_lt_is_Some_2 l2 i) as [x Hx]; [lia|].
    rewrite Hx. rewrite (drop_S l2 x i Hx).
    destruct (String.eqb_spec str x) as [->|Hne]; cbn [negb].
    + rewrite IH by lia. f_equal. apply bool_decide_ext.
      split; [now intros -> | now intros [= ->]].
    + f_equal. symmetry. apply bool_decide_eq_false. now intros [= ->].
Qed.

(** X3. [compareStringLists] returns true exactly when the two lists are
    equal, and false otherwise; it never indexes the second list out of
    range. *)
Theorem compareStringLists_reflects_equality (l1 l2 : list string) :
  compareStringLists l1 l2 = Ok (bool_decide (l1 = l2)).
Proof.
  unfold compareStringLists.
  destruct (Nat.eqb_spec (length l1) (length l2)) as [Hlen|Hlen]; cbn [negb].
  - rewrite compareLoop_drop by (cbn; lia). reflexivity.
  - f_equal. symmetry. apply bool_decide_eq_false. now intros ->.
Qed.

Lemma length_list_ascii_of_string (s : string) :
  length (list_ascii_of_string s) = String.length s.
Proof. induction s as [|c s IH]; cbn; [reflexivity | now rewrite IH]. Qed.

Lemma store_middle (pre post : list ascii) (old b : ascii) :
  store (length pre) b (pre ++ old :: post) = Some (pre ++ b :: post).
Proof.
  unfold store. rewrite length_app. cbn [length].
  destruct (decide (length pre < length pre + S (length post))) as [_|Hno]; [|lia].
  f_equal. rewrite <- (Nat.add_0_r (length pre)) at 1.
  now rewrite insert_app_r.
Qed.

Lemma store_end (p : list ascii) (i : nat) (b : ascii) :
  length p <= i -> store i b p = None.
Proof.
  intros Hle. unfold store. destruct (decide (i < length p)); [lia | reflexivity].
Qed.

(** The loop over a buffer with room for the bytes. *)
Lemma copyLoop_fits (bytes : list ascii) :
  forall (pre mid post : list ascii),
    length mid = length bytes ->
    copyLoop (length pre) bytes (pre ++ mid ++ post) = (pre ++ bytes ++ post, Ok tt).
Proof.
  induction bytes as [|b bytes IH]; intros pre mid post Hlen.
  - destruct mid; [reflexivity | discriminate].
  - destruct mid as [|old mid]; [discriminate|].
    cbn [copyLoop app]. rewrite store_middle.
    specialize (IH (pre ++ [b]) mid post ltac:(cbn in Hlen; lia)).
    rewrite length_app in IH. cbn [length] in IH.
    replace (length pre + 1) with (S (length pre)) in IH by lia.
    rewrite <- !app_assoc in IH. exact IH.
Qed.

(** The loop over a buffer that ends before the bytes do. *)
Lemma copyLoop_short (bytes : list ascii) :
  forall (pre mid : list ascii),
    length mid < length bytes ->
    copyLoop (length pre) bytes (pre ++ mid)
    = (pre ++ take (length mid) bytes, Panicked indexOutOfRange).
Proof.
  induction bytes as [|b bytes IH]; intros pre mid Hlen; [cbn in Hlen; lia|].
  destruct mid as [|old mid].
  - cbn [copyLoop]. rewrite store_end by (rewrite app_nil_r; lia). reflexivity.
  - cbn [copyLoop app]. rewrite store_middle.
    specialize (IH (pre ++ [b]) mid ltac:(cbn in Hlen; lia)).
    rewrite length_app in IH. cbn [length] in IH.
    replace (length pre + 1) with (S (length pre)) in IH by lia.
    rewrite <- !app_assoc in IH. exact IH.
Qed.

(** X4. [testReader.Read] into a buffer longer than [toRead]: the bytes
    of [toRead] and a newline are at the start of the buffer, the bytes
    of the buffer after them are as before, and the result is the length
    of [toRead] plus one; the bytes read, written by [testWriter.Write],
    are the string [toRead] followed by a newline. *)
Theorem Read_fills_buffer (self : testReader) (p : list ascii) :
  String.length (toRead self) < length p ->
  let n := String.length (toRead self) in
  Read self p
  = (list_ascii_of_string (toRead self) ++ newline :: drop (S n) p, Ok (n + 1)) /\
  length (fst (Read self p)) = length p /\
  Write (take (n + 1) (fst (Read self p)))
  = (toRead self +:+ String newline EmptyString, n + 1).
Proof.
  intros Hlen n.
  pose proof (length_list_ascii_of_string (toRead self)) as Hbytes. fold n in Hbytes.
  assert (Hsplit : p = [] ++ take n p ++ drop n p) by (cbn; now rewrite take_drop).
  destruct (lookup_lt_is_Some_2 p n Hlen) as [old Hold].
  assert (Hrun : Read self p
    = (list_ascii_of_string (toRead self) ++ newline :: drop (S n) p, Ok (n + 1))).
  { unfold Read. rewrite Hsplit at 1.
    change 0 with (length (@nil ascii)).
    rewrite copyLoop_fits by (rewrite length_take_le; lia).
    cbn [app]. rewrite (drop_S p old n Hold). fold n. rewrite <- Hbytes.
    now rewrite store_middle. }
  rewrite Hrun. cbn [fst]. split; [reflexivity|]. split.
  - rewrite length_app. cbn [length]. rewrite length_drop. lia.
  - unfold Write.
    change (list_ascii_of_string (toRead self) ++ newline :: drop (S n) p)
      with (list_ascii_of_string (toRead self) ++ [newline] ++ drop (S n) p).
    rewrite app_assoc, take_app_length'
      by (rewrite length_app; cbn [length]; lia).
    f_equal.
    + clear. induction (toRead self) as [|c s IH]; [reflexivity|].
      cbn [list_ascii_of_string app string_of_list_ascii]. rewrite IH. reflexivity.
    + rewrite length_app. cbn [length]. lia.
Qed.

(** X5. [testReader.Read] into a buffer that is not longer than
    [toRead] panics with an index out of range, after it has filled the
    whole buffer with the first bytes of [toRead]. *)
Theorem Read_overruns_buffer (self : testReader) (p : list ascii) :
  length p <= String.length (toRead self) ->
  Read self p
  = (take (length p) (list_ascii_of_string (toRead self)), Panicked indexOutOfRange).
Proof.
  intros Hlen.
  pose proof (length_list_ascii_of_string (toRead self)) as Hbytes.
  unfold Read.
  destruct (decide (length p = String.length (toRead self))) as [Heq|Hne].
  - pose proof (copyLoop_fits (list_ascii_of_string (toRead self)) [] p []
                  ltac:(lia)) as Hloop.
    cbn [length app] in Hloop. rewrite !app_nil_r in Hloop. rewrite Hloop.
    rewrite store_end by lia.
    now rewrite take_ge by lia.
  - pose proof (copyLoop_short (list_ascii_of_string (toRead self)) [] p
                  ltac:(lia)) as Hloop.
    cbn [length app] in Hloop. now rewrite Hloop.
Qed.

Lemma Read_fills_buffer_witness :
  String.length (toRead greeting) < length (zeros 5) /\
  Read greeting (zeros 5)
  = (list_ascii_of_string "hi" ++ newline :: zeros 2, Ok 3).
Proof.
  split; [cbn; lia|].
  destruct (Read_fills_buffer greeting (zeros 5) ltac:(cbn; lia)) as [Hrun _].
  exact Hrun.
Defined.

Lemma Read_overruns_buffer_witness :
  length (zeros 2) <= String.length (toRead greeting) /\
  Read greeting (zeros 2) = (list_ascii_of_string "hi", Panicked indexOutOfRange).
Proof.
  split; [cbn; lia|].
  apply (Read_overruns_buffer greeting (zeros 2)). cbn. lia.
Defined.

End UtilsTestSpec.

(* ===================================================================== *)
(** ** More on the reader                                                 *)
(* ===================================================================== *)

Module ReaderMore.
Import Fmt Utils Session Commands ReaderSpec Sample SampleMore.

Section Facts.
Context `{Utils.Ops}.

Open Scope Z_scope.

(** X6. The reader hands over the inputs in the order of the requests,
    each one once: they are the inputs it reads up to its first panic,
    and after a panic it hands over nothing more. It never hands over
    more inputs than it got requests. *)
Theorem reader_hands_over_in_order (start : Z) (reqs : list Request) :
  handedOver (reader start reqs) = inputsRead reqs /\
  length (deliveries (reader start reqs)) = length (inputsRead reqs) /\
  (length (inputsRead reqs) <= length reqs)%nat.
Proof.
  unfold reader. revert start.
  induction reqs as [|q reqs IH]; intros start; [now repeat split|].
  rewrite readerLoop_turn. cbn [inputsRead].
  destruct (readInput (reqMode q) (reqRead q)) as [input|r]; [|cbn; repeat split; lia].
  destruct (Z.of_N (elapsed q) <? delay); cbv zeta; cbn [handedOver deliveries length];
    match goal with
    | |- context [readerLoop ?t reqs] => destruct (IH t) as (Hin & Hlen & Hle)
    end;
    rewrite Hin, Hlen; repeat split; lia.
Qed.

(** X7. The panic the reader forwards is the last thing it does: the run
    ends with it. *)
Theorem reader_ends_with_panic (start : Z) (reqs : list Request) (i : nat)
    (t : Z) (r : PanicValue) :
  reader start reqs !! i = Some (Forwarded t r) ->
  length (reader start reqs) = S i.
Proof.
  unfold reader. revert start i.
  induction reqs as [|q reqs IH]; intros start i Hi; [discriminate|].
  rewrite readerLoop_turn in Hi |- *.
  destruct (readInput (reqMode q) (reqRead q)) as [input|r'].
  - destruct (Z.of_N (elapsed q) <? delay); cbv zeta in Hi |- *.
    + destruct i as [|[|i]]; [discriminate..|].
      cbn [lookup list_lookup] in Hi. cbn [length]. f_equal. f_equal.
      exact (IH _ _ Hi).
    + destruct i as [|i]; [discriminate|].
      cbn [lookup list_lookup] in Hi. cbn [length]. f_equal.
      exact (IH _ _ Hi).
  - destruct i as [|i]; [reflexivity|]. destruct i; discriminate.
Qed.

(** X8. The reader never sleeps for longer than the delay of 200ms, and
    never for a duration that is not positive. *)
Theorem reader_sleep_bounded (start : Z) (reqs : list Request) (d : Duration) :
  Slept d ∈ reader start reqs ->
  0 < d <= delay.
Proof.
  unfold reader. revert start.
  induction reqs as [|q reqs IH]; intros start Hin.
  - now apply elem_of_nil in Hin.
  - rewrite readerLoop_turn in Hin.
    pose proof (N2Z.is_nonneg (elapsed q)).
    destruct (readInput (reqMode q) (reqRead q)) as [input|r].
    + destruct (Z.ltb_spec (Z.of_N (elapsed q)) delay) as [Hsmall|Hbig];
        cbv zeta in Hin.
      * apply elem_of_cons in Hin as [[= ->]|Hin]; [lia|].
        apply elem_of_cons in Hin as [Hin|Hin]; [discriminate|].
        exact (IH _ Hin).
      * apply elem_of_cons in Hin as [Hin|Hin]; [discriminate|].
        exact (IH _ Hin).
    + apply elem_of_cons in Hin as [Hin|Hin]; [discriminate|].
      now apply elem_of_nil in Hin.
Qed.

End Facts.

Lemma reader_ends_with_panic_witness :
  reader 0 broken !! 2%nat
  = Some (Forwarded 200000000%Z "Unhandled case in switch statement (userInputMode)") /\
  length (reader 0 broken) = 3%nat.
Proof.
  split; [reflexivity|].
  apply (reader_ends_with_panic 0 broken 2 200000000%Z
           "Unhandled case in switch statement (userInputMode)").
  reflexivity.
Defined.

Lemma reader_sleep_bounded_witness :
  Slept 200000000%Z ∈ reader 0 burst /\
  (0 < 200000000 <= delay)%Z.
Proof.
  assert (Hin : Slept 200000000%Z ∈ reader 0 burst) by (vm_compute; constructor).
  split; [exact Hin|].
  apply (reader_sleep_bounded 0 burst 200000000%Z Hin).
Defined.

End ReaderMore.

(* ===================================================================== *)
(** ** More on the dispatcher                                             *)
(* ===================================================================== *)

Module SessionMore.
Import Fmt Utils Database Model Session Commands SessionSpec Sample SampleMore.

Lemma arrivals_split (arrivals : list Arrival) :
  (exists events, arrivals = map AEvent events) \/
  (exists events rd rest, arrivals = map AEvent events ++ AInput rd :: rest).
Proof.
  induction arrivals as [|[event|rd] arrivals IH].
  - left. now exists [].
  - destruct IH as [[events ->]|(events & rd & rest & ->)].
    + left. now exists (event :: events).
    + right. now exists (event :: events), rd, rest.
  - right. now exists [], rd, arrivals.
Qed.

Lemma menusPrinted_app (o1 o2 : list Output) :
  menusPrinted (o1 ++ o2) = menusPrinted o1 + menusPrinted o2.
Proof. unfold menusPrinted. now rewrite filter_app, length_app. Qed.

Section Facts.
Context `{Fmt.Ops} `{Utils.Ops} `{Directions} `{Model.Ops} `{Rendering}.
Variable handleAction : string -> list string -> M unit.
Variable otherCommand : nat -> string -> list string -> M unit.

Lemma menusPrinted_rendered (prompt : string) (cm : Utils.ColorMode) (player : ptr)
    (events : list Event) :
  menusPrinted (flat_map (rendered prompt cm player) events) = 0.
Proof.
  induction events as [|event events IH]; [reflexivity|].
  cbn [flat_map]. rewrite menusPrinted_app, IH. unfold rendered.
  destruct (String.eqb _ _); reflexivity.
Qed.

Lemma menusPrinted_turn (o : list Output) (menu : Menu) (cm : Utils.ColorMode)
    (prompt : string) (player : ptr) (events : list Event) :
  menusPrinted (o ++ OMenu menu cm :: flat_map (rendered prompt cm player) events)
  = menusPrinted o + 1.
Proof.
  change (OMenu menu cm :: ?l) with ([OMenu menu cm] ++ l).
  rewrite !menusPrinted_app, menusPrinted_rendered.
  change (menusPrinted [OMenu menu cm]) with 1. lia.
Qed.

Lemma readerTurn_clean (line : string) :
  readerTurn CleanUserInput (Line line) = OnUserInput (CleanLine line).
Proof. reflexivity. Qed.


(** X9. [getUserInput] makes up nothing. An input it returns is the
    input the reader made of the first read that arrives, and what
    arrives after that read is left pending; it panics only with the
    panic of the reader; with nothing but events to come it goes on
    waiting; and it has no other way to end. *)
Theorem getUserInput_only_from_reader (inputMode : userInputMode) (prompt : string)
    (s : State) :
  match getUserInput inputMode prompt s with
  | (Ret input, s') =>
      exists events rd rest,
        pending s = map AEvent events ++ AInput rd :: rest /\
        readerTurn inputMode rd = OnUserInput input /\
        pending s' = rest
  | (Panic v, s') =>
      exists events rd rest,
        pending s = map AEvent events ++ AInput rd :: rest /\
        readerTurn inputMode rd = OnPanic v /\
        pending s' = rest
  | (Blocked, s') => exists events, pending s = map AEvent events
  | (OutOfFuel, _) => False
  end.
Proof.
  destruct (arrivals_split (pending s)) as [[events Hp]|(events & rd & rest & Hp)].
  - destruct (getUserInput_waits inputMode prompt events s Hp) as (s' & Hrun & _).
    rewrite Hrun. now exists events.
  - destruct (getUserInput_reader inputMode prompt events rd rest s Hp)
      as (s' & Hrun & Hpend & _).
    rewrite Hrun.
    destruct (readerTurn inputMode rd) as [input|v] eqn:Hturn;
      exists events, rd, rest; repeat split; assumption.
Qed.

Lemma awaitInput_keeps_room (inputMode : userInputMode) (prompt : string)
    (arrivals : list Arrival) :
  forall (s s' : State) (r : Outcome string),
    awaitInput inputMode prompt arrivals s = (r, s') ->
    GetId (rooms (world s') (room (session s')))
    = GetId (rooms (world s) (room (session s))) /\
    zone (session s') = zone (session s) /\
    forall q : ptr, rooms (world s') q = rooms (world s) q.
Proof.
  induction arrivals as [|[event|rd] arrivals IH]; intros s s' r; cbn [awaitInput].
  - intros [= <- <-]. now repeat split.
  - session_steps.
    destruct (processEvent_spec event (set_pending arrivals s))
      as (s1 & Hrun & Hsess & Hrooms & _).
    rewrite Hrun. cbn [session world set_pending] in Hsess, Hrooms |- *.
    assert (Hid : GetId (rooms (world s1) (room (session s1)))
                  = GetId (rooms (world s) (room (session s)))).
    { rewrite Hrooms, Hsess. destruct event as [p|kind text]; [|reflexivity].
      destruct (String.eqb_spec (GetId (rooms (world s) p))
                  (GetId (rooms (world s) (room (session s))))) as [Heq|_];
        [exact Heq | reflexivity]. }
    assert (Hzone : zone (session s1) = zone (session s)).
    { rewrite Hsess. destruct event as [p|kind text]; [|reflexivity].
      destruct (String.eqb _ _); reflexivity. }
    destruct (negb (String.eqb (ToString event (player (session s))) ""));
      session_steps.
    + match goal with
      | |- context [printLineColor ?c ?l ?a ?s2] =>
          destruct (printLineColor_spec c l a s2)
            as (s3 & Hprint & _ & Hsess3 & _ & _ & Hrooms3 & _)
      end.
      rewrite Hprint. session_steps.
      cbn [session world set_out] in Hsess3, Hrooms3.
      intros Hrec; apply IH in Hrec as (Hid2 & Hzone2 & Hrooms2).
      cbn [session world out set_out] in Hid2, Hzone2, Hrooms2.
      rewrite Hsess3, Hrooms3 in Hid2. rewrite Hsess3 in Hzone2.
      split; [now rewrite Hid2 | split; [now rewrite Hzone2 |]].
      intros q. now rewrite Hrooms2, Hrooms3.
    + intros Hrec; apply IH in Hrec as (Hid2 & Hzone2 & Hrooms2).
      split; [now rewrite Hid2 | split; [now rewrite Hzone2 |]].
      intros q. now rewrite Hrooms2.
  - session_steps. destruct (readerTurn inputMode rd); intros [= <- <-];
      now repeat split.
Qed.

(** X10. While [getUserInput] waits, whatever events it takes and however
    it ends, the room the session has cached keeps its id (an update
    replaces it only by a room of the same id), the cached zone is the
    same, and no room is changed. *)
Theorem getUserInput_keeps_room_id (inputMode : userInputMode) (prompt : string)
    (s s' : State) (r : Outcome string) :
  getUserInput inputMode prompt s = (r, s') ->
  GetId (rooms (world s') (room (session s')))
  = GetId (rooms (world s) (room (session s))) /\
  zone (session s') = zone (session s) /\
  forall q : ptr, rooms (world s') q = rooms (world s) q.
Proof.
  unfold getUserInput. session_steps.
  apply (awaitInput_keeps_room inputMode prompt (pending s) s).
Qed.

(** X11. What [execMenu] returns is a choice the menu has, or the empty
    choice, with the data the menu has for it; an input that is neither is
    never returned. *)
Theorem execMenu_returns_valid_choice (fuel : nat) (menu : Menu) (s s' : State)
    (choice : string) (data : ObjectId) :
  execMenu fuel menu s = (Ret (choice, data), s') ->
  (HasAction menu choice || String.eqb choice "")%bool = true /\
  data = GetData menu choice.
Proof.
  revert s. induction fuel as [|fuel IH]; intros s; [discriminate|].
  cbn [execMenu]. session_steps.
  rewrite callUser_GetColorMode. session_steps.
  match goal with
  | |- context [getUserInput ?m ?p ?s0] =>
      destruct (getUserInput m p s0) as [[c|v| |] s1]
  end; try discriminate.
  destruct (HasAction menu c || String.eqb c "")%bool eqn:Hvalid.
  - intros [= <- <- <-]. now split.
  - apply IH.
Qed.

(** X12. [execMenu] asks again after each input that is not a choice of
    the menu: after a number of such inputs and then a valid one, with
    events in between, it returns the valid one, leaves what follows
    pending, and has printed the menu once for each input. *)
Theorem execMenu_asks_again (fuel : nat) (menu : Menu)
    (bad : list (list Event * string)) (events : list Event) (line : string)
    (rest : list Arrival) (s : State) :
  Forall (fun t => (HasAction menu (CleanLine (snd t))
                    || String.eqb (CleanLine (snd t)) "")%bool = false) bad ->
  (HasAction menu (CleanLine line) || String.eqb (CleanLine line) "")%bool = true ->
  pending s = turns bad ++ map AEvent events ++ AInput (Line line) :: rest ->
  exists s' : State,
    execMenu (length bad + S fuel) menu s
    = (Ret (CleanLine line, GetData menu (CleanLine line)), s') /\
    pending s' = rest /\
    menusPrinted (out s') = menusPrinted (out s) + length bad + 1.
Proof.
  intros Hbad Hgood. revert s.
  induction Hbad as [|[evs l] bad Hl Hbad IH]; intros s Hpending.
  - cbn [turns flat_map app length Nat.add] in *.
    destruct (execMenu_turn fuel menu events (Line line) rest s Hpending)
      as (s' & Hrun & Hpend & Hout & _).
    rewrite readerTurn_clean, Hgood in Hrun. exists s'. split; [exact Hrun|]. split; [exact Hpend|].
    rewrite Hout, menusPrinted_turn. lia.
  - cbn [turns flat_map fst snd] in Hpending. rewrite <- !app_assoc in Hpending.
    cbn [app] in Hpending. fold (turns bad) in Hpending.
    cbn [length Nat.add].
    destruct (execMenu_turn (length bad + S fuel) menu evs (Line l) _ s Hpending)
      as (s1 & Hrun & Hpend & Hout & _).
    cbn [snd] in Hl. rewrite readerTurn_clean, Hl in Hrun.
    destruct (IH s1 Hpend) as (s' & Hrun' & Hpend' & Hout').
    exists s'. split; [now rewrite Hrun|]. split; [exact Hpend'|].
    rewrite Hout', Hout, menusPrinted_turn. lia.
Qed.

(** X13. However [Exec] ends, by returning or by a panic, from the
    reader or from anything [handleAction] and the commands do, the mailbox
    of the player is unregistered when it has ended. *)
Theorem Exec_always_unregisters (fuel : nat) (s s' : State) (r : Outcome unit) :
  Exec handleAction otherCommand fuel s = (r, s') ->
  r <> Blocked ->
  r <> OutOfFuel ->
  player (session s) ∉ mailboxes (world s').
Proof.
  unfold Exec, defer. session_steps.
  match goal with
  | |- context [match ?body with _ => _ end] => destruct body as [[[]|v| |] s1]
  end; intros [= <- <-] Hb Hf; try contradiction; apply Unregister_gone.
Qed.


End Facts.

Lemma getUserInput_keeps_room_id_witness :
  let r := getUserInput RawUserInput "> " (typing "N") in
  r = (fst r, snd r) /\
  GetId (rooms (world (snd r)) (room (session (snd r)))) = "r1".
Proof.
  split; [apply surjective_pairing|].
  destruct (getUserInput_keeps_room_id RawUserInput "> " (typing "N")
              (snd (getUserInput RawUserInput "> " (typing "N")))
              (fst (getUserInput RawUserInput "> " (typing "N")))
              (surjective_pairing _)) as [Hid _].
  exact Hid.
Defined.

Lemma execMenu_returns_valid_choice_witness :
  let r := execMenu 2 exitMenu choosing in
  r = (Ret ("n", ""), snd r) /\
  (HasAction exitMenu "n" || String.eqb "n" "")%bool = true.
Proof.
  assert (Hrun : execMenu 2 exitMenu choosing
                 = (Ret ("n", ""), snd (execMenu 2 exitMenu choosing)))
    by (vm_compute; reflexivity).
  split; [exact Hrun|].
  destruct (execMenu_returns_valid_choice 2 exitMenu choosing
              (snd (execMenu 2 exitMenu choosing)) "n" "" Hrun)
    as [Hvalid _].
  exact Hvalid.
Defined.

Lemma execMenu_asks_again_witness :
  Forall (fun t => (HasAction exitMenu (CleanLine (snd t))
                    || String.eqb (CleanLine (snd t)) "")%bool = false) wrong /\
  (HasAction exitMenu (CleanLine "N") || String.eqb (CleanLine "N") "")%bool = true /\
  exists s' : State,
    execMenu 2 exitMenu choosing = (Ret ("n", ""), s') /\
    pending s' = more /\
    menusPrinted (out s') = 2.
Proof.
  assert (Hbad : Forall (fun t : list Event * string =>
                    (HasAction exitMenu (CleanLine (snd t))
                     || String.eqb (CleanLine (snd t)) "")%bool = false) wrong)
    by (constructor; [reflexivity | constructor]).
  split; [exact Hbad|]. split; [reflexivity|].
  apply (execMenu_asks_again 0 exitMenu wrong chatter "N" more choosing Hbad);
    reflexivity.
Defined.

Lemma Exec_always_unregisters_witness :
  let r := Exec noAction noCommand 1 (failing "EOF") in
  r = (Panic "EOF", snd r) /\
  1 ∉ mailboxes (world (snd r)).
Proof.
  assert (Hrun : Exec noAction noCommand 1 (failing "EOF")
                 = (Panic "EOF", snd (Exec noAction noCommand 1 (failing "EOF"))))
    by (vm_compute; reflexivity).
  split; [exact Hrun|].
  apply (Exec_always_unregisters noAction noCommand 1 (failing "EOF")
           (snd (Exec noAction noCommand 1 (failing "EOF"))) (Panic "EOF") Hrun);
    discriminate.
Defined.


End SessionMore.

(* ===================================================================== *)
(** ** More on the exits                                                  *)
(* ===================================================================== *)

Module ExitMore.
Import Fmt Utils Database Model Session Commands LockSpec SessionSpec ExitSpec Sample SampleMore.

Section Facts.
Context `{Fmt.Ops} `{Utils.Ops} `{Directions} `{Model.Ops} `{Rendering} `{Commands.Ops}.
Variable handleAction : string -> list string -> M unit.
Variable otherCommand : nat -> string -> list string -> M unit.

(** X15. [toggleExitMenu] reads the ten exits of the room, each under
    the read lock of the room, and changes nothing: no room, no commit,
    nothing written. The menu it returns has the ten entries in the order
    of the source, each labelled On or Off as the room has the exit or
    not. *)
Theorem toggleExitMenu_reads_exits (cm : Utils.ColorMode) (p : ptr) (s : State) :
  let r := rooms (world s) p in
  let id := GetId r in
  exists s' : State,
    toggleExitMenu cm p s
    = (Ret (foldl (fun menu e =>
                     AddAction (fst (fst e))
                       (snd (fst e)
                        +:+ Colorize cm ColorBlue (if hasExit r (snd e) then "On" else "Off"))
                       menu)
                  (NewMenu "Edit Exits") exitEntries), s') /\
    session s' = session s /\
    out s' = out s /\
    pending s' = pending s /\
    (forall q : ptr, rooms (world s') q = rooms (world s) q) /\
    dblog (world s')
    = dblog (world s) ++ concat (replicate 10 [EReadLock id; EReadUnlock id]).
Proof.
  intros r id. unfold toggleExitMenu, HasExit. session_steps.
  do 10 (rewrite callRoom_reading; session_steps; rewrite ?fn_lookup_insert).
  fold r. fold id.
  eexists. split; [reflexivity|]. session_steps.
  repeat split.
  - intros q. heap_cases; reflexivity.
  - rewrite <- !app_assoc. reflexivity.
Qed.

(** A toggle, as the room of the session sees it: its exit in the
    direction is turned, whatever the model finds next to it. *)
Lemma toggleExit_here (direction : ExitDirection) (s : State) :
  direction <> DirectionNone ->
  exists s' : State,
    toggleExit direction s = (Ret tt, s') /\
    session s' = session s /\
    out s' = out s /\
    pending s' = pending s /\
    hasExit (rooms (world s') (room (session s))) direction
    = negb (hasExit (rooms (world s) (room (session s))) direction).
Proof.
  intros Hdir. unfold toggleExit.
  destruct (decide (direction <> DirectionNone)) as [_|Hno]; [|contradiction].
  session_steps. unfold HasExit, NextLocation.
  set (here := room (session s)).
  destruct (callRoom_read (fun r => hasExit r direction) here (world s))
    as (wa & Ha & Hrooms_a & _).
  rewrite Ha. session_steps.
  set (enable := negb (hasExit (rooms (world s) here) direction)).
  destruct (callRoom_SetExitEnabled direction enable here wa)
    as (wb & Hb & Hhas_b & _).
  rewrite Hb. session_steps.
  destruct (callRoom_read (fun r => nextLocation r direction) here wb)
    as (w1 & H1' & Hrooms_1 & _).
  rewrite H1'. session_steps.
  assert (Hfirst : hasExit (rooms w1 here) direction = enable) by now rewrite Hrooms_1.
  destruct (GetRoomByLocation w1 _ (zone (session s))) as [other|]; session_steps.
  - destruct (callRoom_SetExitEnabled (Opposite direction) enable other w1)
      as (w2 & H2' & Hhas_2 & Hdirs_2 & Hrooms_2 & _).
    rewrite H2'. session_steps.
    eexists. split; [reflexivity|]. session_steps.
    repeat (split; [reflexivity|]).
    destruct (decide (here = other)) as [<-|Hne].
    + destruct (decide (direction = Opposite direction)) as [Hsame|Hdiff].
      * rewrite Hsame at 1. exact Hhas_2.
      * now rewrite Hdirs_2.
    + now rewrite Hrooms_2.
  - eexists. split; [reflexivity|]. session_steps. now repeat split.
Qed.

(** X16. Toggling an exit of the room twice leaves the room with the exit
    as it was before: the first toggle turns it, in the state the toggle
    ends in, and the second turns it back, whether a room is next to it or
    not. *)
Theorem toggleExit_twice (direction : ExitDirection) (s : State) :
  direction <> DirectionNone ->
  let here := room (session s) in
  exists s1 s2 : State,
    toggleExit direction s = (Ret tt, s1) /\
    hasExit (rooms (world s1) here) direction
    = negb (hasExit (rooms (world s) here) direction) /\
    toggleExit direction s1 = (Ret tt, s2) /\
    hasExit (rooms (world s2) here) direction
    = hasExit (rooms (world s) here) direction /\
    session s2 = session s.
Proof.
  intros Hdir here.
  destruct (toggleExit_here direction s Hdir) as (s1 & Hrun1 & Hsess1 & _ & _ & Hhas1).
  destruct (toggleExit_here direction s1 Hdir) as (s2 & Hrun2 & Hsess2 & _ & _ & Hhas2).
  exists s1, s2. rewrite Hsess1 in Hhas2. fold here in Hhas1, Hhas2.
  split; [exact Hrun1|]. split; [exact Hhas1|]. split; [exact Hrun2|].
  split; [|now rewrite Hsess2].
  rewrite Hhas2, Hhas1. apply negb_involutive.
Qed.

(** The ten cases of the quick commands. *)
Lemma quickExit_cases (command : string) (there back : ExitDirection) (action : string) :
  quickExit command = Some (there, action, back) ->
  (there, back) ∈ [(DirectionNorth, DirectionSouth); (DirectionEast, DirectionWest);
                   (DirectionSouth, DirectionNorth); (DirectionWest, DirectionEast);
                   (DirectionUp, DirectionDown); (DirectionDown, DirectionUp);
                   (DirectionNorthEast, DirectionSouthWest);
                   (DirectionNorthWest, DirectionSouthEast);
                   (DirectionSouthEast, DirectionNorthWest);
                   (DirectionSouthWest, DirectionNorthEast)] /\
  command = String "/" action.
Proof.
  unfold quickExit.
  repeat match goal with
  | |- context [String.eqb command ?k] =>
      destruct (String.eqb_spec command k) as [->|_];
      [intros [= <- <- <-]; split; [|reflexivity];
       repeat (first [apply list_elem_of_here | apply list_elem_of_further]) |]
  end.
  discriminate.
Qed.

(** X17. A quick command, [/n] to [/sw], enables the exit in its
    direction in the room of the session, then runs the action of the
    same name, and then enables the exit back in the room the session is
    in after the action: that room has the way back, whichever room the
    action led to, and no other room is touched by that last step. If the
    action panics, the exit back is not made. The way back of the way
    back is the direction itself, and no quick command has the direction
    [DirectionNone]. *)
Theorem quickCommand_opens_both_ways (fuel : nat) (command action : string)
    (args : list string) (there back : ExitDirection) (s : State) :
  quickExit command = Some (there, action, back) ->
  (exists command' action', quickExit command' = Some (back, action', there)) /\
  there <> DirectionNone /\
  exists s1 : State,
    session s1 = session s /\
    hasExit (rooms (world s1) (room (session s))) there = true /\
    (forall q : ptr, q <> room (session s) -> rooms (world s1) q = rooms (world s) q) /\
    (forall (v : PanicValue) (s2 : State),
       handleAction action [] s1 = (Panic v, s2) ->
       moreCommands handleAction otherCommand fuel command args s = (Panic v, s2)) /\
    (forall s2 : State,
       handleAction action [] s1 = (Ret tt, s2) ->
       exists s3 : State,
         moreCommands handleAction otherCommand fuel command args s = (Ret tt, s3) /\
         session s3 = session s2 /\
         hasExit (rooms (world s3) (room (session s2))) back = true /\
         (forall q : ptr, q <> room (session s2) ->
            rooms (world s3) q = rooms (world s2) q)).
Proof.
  intros Hquick.
  destruct (quickExit_cases command there back action Hquick) as [Hpair ->].
  split; [|split].
  - repeat (apply elem_of_cons in Hpair as [[= -> ->]|Hpair];
            [first [ now exists "/n", "n" | now exists "/e", "e" | now exists "/s", "s"
                   | now exists "/w", "w" | now exists "/u", "u" | now exists "/d", "d"
                   | now exists "/ne", "ne" | now exists "/nw", "nw"
                   | now exists "/se", "se" | now exists "/sw", "sw" ] |]).
    now apply elem_of_nil in Hpair.
  - repeat (apply elem_of_cons in Hpair as [[= -> ->]|Hpair]; [discriminate|]).
    now apply elem_of_nil in Hpair.
  - unfold moreCommands. rewrite Hquick. unfold quickCommand. session_steps.
    destruct (callRoom_SetExitEnabled there true (room (session s)) (world s))
      as (w1 & Hset1 & Hhas1 & _ & Hrooms1 & _).
    rewrite Hset1. session_steps.
    exists (set_world w1 s). session_steps.
    split; [reflexivity|]. split; [exact Hhas1|]. split; [exact Hrooms1|]. split.
    + intros v s2 Hact. now rewrite Hact.
    + intros s2 Hact. rewrite Hact. session_steps.
      destruct (callRoom_SetExitEnabled back true (room (session s2)) (world s2))
        as (w3 & Hset3 & Hhas3 & _ & Hrooms3 & _).
      rewrite Hset3. session_steps.
      eexists. split; [reflexivity|]. session_steps. now repeat split.
Qed.

End Facts.

Lemma toggleExit_twice_witness :
  DirectionNorth <> DirectionNone /\
  exists s1 s2 : State,
    toggleExit DirectionNorth (start []) = (Ret tt, s1) /\
    hasExit (rooms (world s1) 1) DirectionNorth = true /\
    toggleExit DirectionNorth s1 = (Ret tt, s2) /\
    hasExit (rooms (world s2) 1) DirectionNorth = false.
Proof.
  split; [discriminate|].
  destruct (toggleExit_twice DirectionNorth (start []) ltac:(discriminate))
    as (s1 & s2 & Hrun1 & Hhas1 & Hrun2 & Hhas2 & _).
  exists s1, s2. repeat split; assumption.
Defined.

Lemma quickCommand_opens_both_ways_witness :
  quickExit "/ne" = Some (DirectionNorthEast, "ne", DirectionSouthWest) /\
  exists s3 : State,
    moreCommands noAction noCommand 0 "/ne" [] (start []) = (Ret tt, s3) /\
    hasExit (rooms (world s3) 1) DirectionSouthWest = true.
Proof.
  split; [reflexivity|].
  destruct (quickCommand_opens_both_ways noAction noCommand 0 "/ne" "ne" []
              DirectionNorthEast DirectionSouthWest (start []) ltac:(reflexivity))
    as (_ & _ & s1 & Hsess & _ & _ & _ & Hret).
  destruct (Hret s1 ltac:(reflexivity)) as (s3 & Hrun & _ & Hhas & _).
  exists s3. rewrite Hsess in Hhas. split; [exact Hrun | exact Hhas].
Defined.

End ExitMore.

(* ===================================================================== *)
(** ** More on the commands                                               *)
(* ===================================================================== *)

Module CommandSpec.
Import Fmt Utils Database Model Session Commands LockSpec SessionSpec ExitSpec Sample SampleMore.

Lemma callZone_reading {A} (f : Zone -> A) (p : ptr) (w : World) :
  callZone p (reading f) w
  = (f (zones w p),
     set_dblog (dblog w ++ [EReadLock (GetId (zones w p)); EReadUnlock (GetId (zones w p))])
               (set_zones (<[p := zones w p]> (zones w)) w)).
Proof. unfold callZone. method_steps. now rewrite <- app_assoc. Qed.

Lemma callUser_SetColorMode (cm : Utils.ColorMode) (p : ptr) (w : World) :
  exists w' : World,
    callUser p (SetColorMode cm) w = (tt, w') /\
    ColorMode (users w' p) = cm /\
    GetId (users w' p) = GetId (users w p) /\
    (forall q : ptr, q <> p -> users w' q = users w q) /\
    rooms w' = rooms w /\
    zones w' = zones w /\
    dblog w'
    = dblog w ++ EWriteLock (GetId (users w p))
        :: (if decide (cm = ColorMode (users w p)) then []
            else [EObjectModified UserType (GetId (users w p))])
        ++ [EWriteUnlock (GetId (users w p))].
Proof.
  unfold callUser, SetColorMode. method_steps.
  destruct (decide (cm <> ColorMode (users w p))) as [Hne|Heq]; method_steps.
  - eexists. split; [reflexivity|]. cbn [users dblog rooms zones set_users set_dblog].
    rewrite fn_lookup_insert.
    destruct (decide (cm = ColorMode (users w p))) as [Heq|_]; [contradiction|].
    repeat split; try reflexivity.
    + intros q Hq. now rewrite fn_lookup_insert_ne.
    + now rewrite <- !app_assoc.
  - eexists. split; [reflexivity|]. cbn [users dblog rooms zones set_users set_dblog].
    rewrite fn_lookup_insert.
    destruct (decide (cm = ColorMode (users w p))) as [Heq'|Hne]; [|tauto].
    repeat split; try reflexivity; try (symmetry; assumption).
    + intros q Hq. now rewrite fn_lookup_insert_ne.
    + now rewrite <- !app_assoc.
Qed.

Section Facts.
Context `{Fmt.Ops} `{Utils.Ops} `{Directions} `{Model.Ops} `{Rendering} `{Commands.Ops}.
Variable handleAction : string -> list string -> M unit.
Variable otherCommand : nat -> string -> list string -> M unit.

(** The loop of [/zone list] over the zones. *)
Lemma zone_list_loop (zs : list ptr) :
  forall s : State,
  exists s' : State,
    foldr (fun z k => name ← onZone z Zone_GetName; printLine name [];; k)
          (mret tt) zs s = (Ret tt, s') /\
    out s'
    = out s ++ map (fun z =>
                      OLine (Colorize (ColorMode (users (world s) (user (session s))))
                               ColorWhite (Sprintf (ZoneName (zones (world s) z)) [])))
                   zs /\
    (forall z : ptr, zones (world s') z = zones (world s) z) /\
    rooms (world s') = rooms (world s) /\
    (forall q : ptr, users (world s') q = users (world s) q) /\
    commits (dblog (world s')) = commits (dblog (world s)) /\
    session s' = session s /\
    pending s' = pending s.
Proof.
  induction zs as [|z zs IH]; intros s.
  - exists s. cbn [foldr map]. rewrite app_nil_r. now repeat split.
  - cbn [foldr map]. set (loop := foldr _ _ zs) in *.
    session_steps. unfold Zone_GetName.
    rewrite callZone_reading. session_steps.
    match goal with
    | |- context [printLineColor ?c ?l ?a ?s0] =>
        destruct (printLineColor_spec c l a s0)
          as (s1 & Hprint & Hout1 & Hsess1 & Hpend1 & Husers1 & Hrooms1 & Hzones1 & _
              & Hlog1)
    end.
    rewrite Hprint. session_steps.
    destruct (IH s1) as (s' & Hrun & Hout & Hzones & Hrooms & Husers & Hcommits & Hsess
                         & Hpend).
    cbn [session world out pending set_out set_world zones rooms users dblog set_dblog
         set_zones] in Hout1, Hsess1, Hpend1, Husers1, Hrooms1, Hzones1, Hlog1.
    rewrite Hrun. exists s'. split; [reflexivity|].
    assert (Hsame : forall q, zones (world s1) q = zones (world s) q)
      by (intros q; rewrite Hzones1; heap_cases; reflexivity).
    split; [|split; [|split; [|split; [|split; [|split]]]]].
    + rewrite Hout, Hout1, Hsess1, Husers1, <- app_assoc. cbn [app]. f_equal. f_equal.
      apply map_ext. intros q. now rewrite Hsame.
    + intros q. now rewrite Hzones, Hsame.
    + now rewrite Hrooms, Hrooms1.
    + intros q. now rewrite Husers, Husers1.
    + rewrite Hcommits, Hlog1, !AreaMore.commits_app.
      change (commits [EReadLock ?a; EReadUnlock ?b]) with 0. lia.
    + now rewrite Hsess, Hsess1.
    + now rewrite Hpend, Hpend1.
Qed.

(** X18. [/zone list] prints the two lines of the heading, in blue, and
    then the name of each zone of the model, one per line, in the order
    the model gives them when the heading is printed. Each line goes
    through [printLineColor]: what is written for a zone is the text
    [fmt.Sprintf] makes of its name, taken as the format, in white in the
    colour mode of the user. The command changes no zone, no room and no
    user, commits nothing and leaves the session as it is. *)
Theorem zone_list_prints_names (s : State) :
  let cm := ColorMode (users (world s) (user (session s))) in
  let line := fun (color : Color) (text : string) =>
                OLine (Colorize cm color (Sprintf text [])) in
  exists s1 s' : State,
    (printLineColor ColorBlue "Zones" [];; printLineColor ColorBlue "-----" []) s
    = (Ret tt, s1) /\
    zoneTable (world s1) = zoneTable (world s) /\
    zones (world s1) = zones (world s) /\
    zoneCommand ["list"] s = (Ret tt, s') /\
    out s'
    = out s ++ line ColorBlue "Zones" :: line ColorBlue "-----"
        :: map (fun z => line ColorWhite (ZoneName (zones (world s) z)))
               (GetZones (world s1)) /\
    (forall z : ptr, zones (world s') z = zones (world s) z) /\
    rooms (world s') = rooms (world s) /\
    (forall q : ptr, users (world s') q = users (world s) q) /\
    commits (dblog (world s')) = commits (dblog (world s)) /\
    session s' = session s /\
    pending s' = pending s.
Proof.
  intros cm line. subst line.
  unfold zoneCommand. cbn [String.eqb Ascii.eqb Bool.eqb]. session_steps.
  destruct (printLineColor_spec ColorBlue "Zones" [] s)
    as (sa & Hprint_a & Hout_a & Hsess_a & Hpend_a & Husers_a & Hrooms_a & Hzones_a & _
        & Hlog_a).
  destruct (printLineColor_tables _ _ _ _ _ Hprint_a) as (_ & Htable_a & _).
  rewrite Hprint_a. session_steps.
  destruct (printLineColor_spec ColorBlue "-----" [] sa)
    as (sb & Hprint_b & Hout_b & Hsess_b & Hpend_b & Husers_b & Hrooms_b & Hzones_b & _
        & Hlog_b).
  destruct (printLineColor_tables _ _ _ _ _ Hprint_b) as (_ & Htable_b & _).
  rewrite Hprint_b. session_steps.
  destruct (zone_list_loop (GetZones (world sb)) sb)
    as (s' & Hrun & Hout & Hzones & Hrooms & Husers & Hcommits & Hsess & Hpend).
  exists sb, s'.
  split; [reflexivity|].
  split; [now rewrite Htable_b, Htable_a|].
  split; [now rewrite Hzones_b, Hzones_a|].
  split; [exact Hrun|].
  split; [|split; [|split; [|split; [|split; [|split]]]]].
  - rewrite Hout, Hout_b, Hout_a, !Hsess_b, !Hsess_a, !Husers_b, !Husers_a.
    rewrite Hzones_b, Hzones_a. fold cm.
    rewrite <- !app_assoc. reflexivity.
  - intros z. now rewrite Hzones, Hzones_b, Hzones_a.
  - now rewrite Hrooms, Hrooms_b, Hrooms_a.
  - intros q. now rewrite Husers, Husers_b, Husers_a.
  - rewrite Hcommits, Hlog_b, Hlog_a, !AreaMore.commits_app.
    change (commits [EReadLock ?a; EReadUnlock ?b]) with 0. lia.
  - now rewrite Hsess, Hsess_b, Hsess_a.
  - now rewrite Hpend, Hpend_b, Hpend_a.
Qed.

(** X19. A name [getName] returns is empty, or it is a name no character
    of the model has, in the state the call ends in, and that
    [ValidateName] accepts; a name that is taken or not valid is never
    returned. *)
Theorem getName_returns_free_valid_name (fuel : nat) (s s' : State) (name : string) :
  getName fuel s = (Ret name, s') ->
  name = "" \/
  (GetCharacterByName (world s') name = None /\ ValidateName name = None).
Proof.
  revert s. induction fuel as [|fuel IH]; intros s; [discriminate|].
  cbn [getName]. session_steps.
  destruct (getUserInput CleanUserInput "Desired NPC name: " s) as [[input|v| |] s1];
    try discriminate.
  destruct (String.eqb_spec input "") as [->|Hne].
  - intros [= <- <-]. now left.
  - destruct (GetCharacterByName (world s1) input) eqn:Hchar.
    + session_steps. apply IH.
    + destruct (ValidateName input) eqn:Hvalid.
      * session_steps. apply IH.
      * intros [= <- <-]. now right.
Qed.

(** X20. Setting the colour mode and showing it: [colormode] with a word
    that is [none], [light] or [dark] in lower case sets the mode of the
    user to it, with a commit only if the mode changes, and [cm] without
    argument then shows that mode; the two commands write one line each,
    through [printLine], in the mode that was set. *)
Theorem colormode_set_then_show (fuel : nat) (arg : string) (cm : Utils.ColorMode)
    (s : State) :
  ToLower arg = modeWord cm ->
  let run := processCommand (moreCommands handleAction otherCommand) fuel in
  let me := user (session s) in
  exists s1 s2 : State,
    run "colormode" [arg] s = (Ret tt, s1) /\
    ColorMode (users (world s1) me) = cm /\
    commits (dblog (world s1))
    = commits (dblog (world s))
      + (if decide (cm = ColorMode (users (world s) me)) then 0 else 1) /\
    run "cm" [] s1 = (Ret tt, s2) /\
    ColorMode (users (world s2) me) = cm /\
    out s2
    = out s ++ [OLine (Colorize cm ColorWhite
                         (Sprintf ("Color mode set to: " +:+ modeName cm) []));
                OLine (Colorize cm ColorWhite
                         (Sprintf ("Current color mode is: " +:+ modeName cm) []))].
Proof.
  intros Hword run me. subst run. unfold processCommand, moreCommands.
  cbn [String.eqb Ascii.eqb Bool.eqb quickExit orb]. unfold colormodeCommand.
  rewrite Hword. session_steps. subst me.
  set (me := user (session s)).
  destruct (callUser_SetColorMode cm me (world s))
    as (w1 & Hset & Hcm & _ & _ & _ & _ & Hlog).
  assert (Hcommits : commits (dblog w1)
    = commits (dblog (world s))
      + (if decide (cm = ColorMode (users (world s) me)) then 0 else 1)).
  { rewrite Hlog, AreaMore.commits_app.
    destruct (decide (cm = ColorMode (users (world s) me))); reflexivity. }
  destruct (printLineColor_spec ColorWhite ("Color mode set to: " +:+ modeName cm) []
              (set_world w1 s))
    as (s1 & Hprint1 & Hout1 & Hsess1 & _ & Husers1 & _ & _ & _ & Hlog1).
  cbn [session world out set_world] in Hout1, Hsess1, Husers1, Hlog1.
  fold me in Hout1. rewrite Hcm in Hout1.
  destruct (callUser_read me (world s1)) as (w2 & Hread & Husers2 & _).
  rewrite Husers1, Hcm in Hread.
  destruct (printLineColor_spec ColorWhite ("Current color mode is: " +:+ modeName cm) []
              (set_world w2 s1))
    as (s2 & Hprint2 & Hout2 & _ & _ & Husers3 & _).
  cbn [session world out set_world] in Hout2, Husers3.
  rewrite Hsess1, Husers2, Husers1 in Hout2. fold me in Hout2. rewrite Hcm in Hout2.
  exists s1, s2.
  split; [destruct cm; cbn [modeWord modeName String.eqb Ascii.eqb Bool.eqb];
          rewrite Hset; session_steps; exact Hprint1|].
  split; [now rewrite Husers1|].
  split; [rewrite Hlog1, AreaMore.commits_app, Hcommits;
          change (commits [EReadLock ?a; EReadUnlock ?b]) with 0; lia|].
  split; [rewrite Hsess1; fold me; rewrite Hread; session_steps;
          destruct cm; exact Hprint2|].
  split; [now rewrite Husers3, Husers2, Husers1|].
  rewrite Hout2, Hout1, <- app_assoc. reflexivity.
Qed.

End Facts.

Lemma getName_returns_free_valid_name_witness :
  let r := getName 2 naming in
  r = (Ret "bob", snd r) /\
  ("bob" = "" \/
   (GetCharacterByName (world (snd r)) "bob" = None /\ ValidateName "bob" = None)).
Proof.
  assert (Hrun : getName 2 naming = (Ret "bob", snd (getName 2 naming)))
    by (vm_compute; reflexivity).
  split; [exact Hrun|].
  apply (getName_returns_free_valid_name 2 naming (snd (getName 2 naming)) "bob" Hrun).
Defined.

Lemma colormode_set_then_show_witness :
  ToLower "LIGHT" = modeWord ColorModeLight /\
  exists s1 s2 : State,
    processCommand (moreCommands noAction noCommand) 0 "colormode" ["LIGHT"] (start [])
    = (Ret tt, s1) /\
    processCommand (moreCommands noAction noCommand) 0 "cm" [] s1 = (Ret tt, s2) /\
    out s2 = [OLine "Color mode set to: Light"; OLine "Current color mode is: Light"].
Proof.
  assert (Hword : ToLower "LIGHT" = modeWord ColorModeLight) by reflexivity.
  split; [exact Hword|].
  destruct (colormode_set_then_show noAction noCommand 0 "LIGHT" ColorModeLight
              (start []) Hword)
    as (s1 & s2 & Hrun1 & _ & _ & Hrun2 & _ & Hout).
  exists s1, s2. repeat split; assumption.
Defined.

End CommandSpec.

(* ===================================================================== *)
(** ** More on the room editor                                            *)
(* ===================================================================== *)

Module EditorSpec.
Import Fmt Utils Database Model Session Commands LockSpec SessionSpec ExitSpec Sample SampleMore.

Lemma callRoom_SetTitle (title : string) (p : ptr) (w : World) :
  exists w' : World,
    callRoom p (SetTitle title) w = (tt, w') /\
    Title (rooms w' p) = title /\
    Description (rooms w' p) = Description (rooms w p) /\
    Exits (rooms w' p) = Exits (rooms w p) /\
    Location (rooms w' p) = Location (rooms w p) /\
    GetId (rooms w' p) = GetId (rooms w p) /\
    (forall q : ptr, q <> p -> rooms w' q = rooms w q) /\
    users w' = users w /\
    dblog w'
    = dblog w ++ EWriteLock (GetId (rooms w p))
        :: (if String.eqb title (Title (rooms w p)) then []
            else [EObjectModified RoomType (GetId (rooms w p))])
        ++ [EWriteUnlock (GetId (rooms w p))].
Proof.
  unfold callRoom, SetTitle. method_steps.
  destruct (String.eqb_spec title (Title (rooms w p))) as [Heq|Hne]; method_steps;
    (eexists; split; [reflexivity|]);
    cbn [rooms users dblog set_rooms set_dblog]; rewrite fn_lookup_insert;
    repeat split; try reflexivity; try (symmetry; assumption);
    try (intros q Hq; now rewrite fn_lookup_insert_ne);
    now rewrite <- !app_assoc.
Qed.

Section Facts.
Context `{Fmt.Ops} `{Utils.Ops} `{Directions} `{Model.Ops} `{Rendering}.
Variable otherCommand : nat -> string -> list string -> M unit.

(** [getUserInput] when the message of the reader is the next to
    arrive. *)
Lemma getUserInput_next (inputMode : userInputMode) (prompt : string) (rd : Read)
    (rest : list Arrival) (s : State) :
  pending s = AInput rd :: rest ->
  getUserInput inputMode prompt s
  = (match readerTurn inputMode rd with
     | OnUserInput input => Ret input
     | OnPanic r => Panic r
     end, set_pending rest s).
Proof.
  intros Hpending. unfold getUserInput. session_steps. rewrite Hpending.
  cbn [awaitInput]. session_steps. destruct (readerTurn inputMode rd); reflexivity.
Qed.

Lemma writes_app (l1 l2 : list Effect) : writes (l1 ++ l2) = writes l1 ++ writes l2.
Proof. unfold writes. apply filter_app. Qed.

(** The step of section 1 that sets the title, if one was typed. *)
Lemma title_step (title : string) (s : State) :
  let here := room (session s) in
  let old := rooms (world s) here in
  exists s' : State,
    (if negb (String.eqb title "")
     then s0 ← get; onRoom (room (session s0)) (SetTitle title)
     else mret tt) s = (Ret tt, s') /\
    session s' = session s /\
    out s' = out s /\
    pending s' = pending s /\
    Title (rooms (world s') here) = (if String.eqb title "" then Title old else title) /\
    Description (rooms (world s') here) = Description old /\
    Exits (rooms (world s') here) = Exits old /\
    (forall q : ptr, q <> here -> rooms (world s') q = rooms (world s) q) /\
    users (world s') = users (world s) /\
    dblog (world s')
    = dblog (world s)
      ++ (if String.eqb title "" then []
          else EWriteLock (GetId old)
               :: (if String.eqb title (Title old) then []
                   else [EObjectModified RoomType (GetId old)])
               ++ [EWriteUnlock (GetId old)]).
Proof.
  intros here old. subst here old.
  destruct (String.eqb title "") eqn:Hempty; cbn [negb]; session_steps.
  - exists s. rewrite app_nil_r. now repeat split.
  - destruct (callRoom_SetTitle title (room (session s)) (world s))
      as (w1 & Hset & Htitle & Hdesc & Hexits & _ & _ & Hrooms & Husers & Hlog).
    rewrite Hset. session_steps.
    eexists. split; [reflexivity|]. session_steps. now repeat split.
Qed.

(** X21. In the room editor, section 1 with a title sets the title of
    the room of the session to the input as it was typed, with a commit
    only if it differs from the title the room has; with an empty input
    no mutator is called: the log gets no write lock and no commit. The
    description, the exits, the other rooms and the users are as before.
    The editor is printed when the command starts and again after the
    title, and an empty selection then prints the room and leaves the
    editor: three lines are written, each the text [Room.ToString] makes
    of the room at that moment, passed on to [printLine] as the format of
    [fmt.Sprintf]; the second and the third show the room with the title
    it ends with. The log is stated by its write locks and commits; the
    read locks of the accessors are left out. *)
Theorem edit_title (fuel : nat) (rd1 rd2 rd3 : Read) (title : string)
    (rest : list Arrival) (s : State) :
  pending s = AInput rd1 :: AInput rd2 :: AInput rd3 :: rest ->
  readerTurn CleanUserInput rd1 = OnUserInput "1" ->
  readerTurn RawUserInput rd2 = OnUserInput title ->
  readerTurn CleanUserInput rd3 = OnUserInput "" ->
  let here := room (session s) in
  let old := rooms (world s) here in
  let cm := ColorMode (users (world s) (user (session s))) in
  let line := fun text : string => OLine (Colorize cm ColorWhite (Sprintf text [])) in
  exists (w1 w2 w3 w4 : World) (s' : State),
    processCommand otherCommand (S (S fuel)) "edit" [] s = (Ret tt, s') /\
    pending s' = rest /\
    session s' = session s /\
    out s'
    = out s ++ [line (Room_ToString w1 here EditMode cm [] [] []);
                line (Room_ToString w2 here EditMode cm [] [] []);
                line (Room_ToString w4 here ReadMode cm
                        (PlayersIn w3 here (player (session s))) (NpcsIn w3 here)
                        (GetItems w4 (itemIds (rooms (world s') here))))] /\
    (forall q : ptr, rooms w1 q = rooms (world s) q) /\
    (forall q : ptr, rooms w2 q = rooms (world s') q) /\
    (forall q : ptr, rooms w3 q = rooms (world s') q) /\
    (forall q : ptr, rooms w4 q = rooms (world s') q) /\
    Title (rooms (world s') here)
    = (if String.eqb title "" then Title old else title) /\
    Description (rooms (world s') here) = Description old /\
    Exits (rooms (world s') here) = Exits old /\
    (forall q : ptr, q <> here -> rooms (world s') q = rooms (world s) q) /\
    (forall q : ptr, users (world s') q = users (world s) q) /\
    writes (dblog (world s'))
    = writes (dblog (world s))
      ++ (if String.eqb title "" then []
          else EWriteLock (GetId old)
               :: (if String.eqb title (Title old) then []
                   else [EObjectModified RoomType (GetId old)])
               ++ [EWriteUnlock (GetId old)]).
Proof.
  intros Hpending H1' H2' H3' here old cm line. subst line.
  unfold processCommand. cbn [String.eqb Ascii.eqb Bool.eqb]. session_steps.
  (* the editor is printed *)
  destruct (printRoomEditor_spec s)
    as (w1 & sa & Hrun_a & Hout_a & Hw1 & Hsess_a & Hpend_a & Husers_a & Hrooms_a & _ & _
        & Hlog_a).
  rewrite Hrun_a. cbn [editLoop]. session_steps.
  (* section 1 and the title *)
  rewrite (getUserInput_next _ _ rd1 (AInput rd2 :: AInput rd3 :: rest))
    by now rewrite Hpend_a.
  rewrite H1'. session_steps. cbn [String.eqb Ascii.eqb Bool.eqb].
  rewrite (getUserInput_next _ _ rd2 (AInput rd3 :: rest)) by reflexivity.
  rewrite H2'. session_steps.
  match goal with
  | |- context [(if negb (String.eqb title "") then _ else _) ?s0] =>
      destruct (title_step title s0)
        as (sb & Hrun_b & Hsess_b & Hout_b & Hpend_b & Htitle_b & Hdesc_b & Hexits_b
            & Hrooms_b & Husers_b & Hlog_b);
      cbv beta iota delta [mbind mret M_bind M_ret get onRoom inWorld] in Hrun_b
  end.
  cbn [session world out pending set_pending] in *.
  rewrite Hrun_b. session_steps.
  (* the editor is printed again *)
  destruct (printRoomEditor_spec sb)
    as (w2 & sc & Hrun_c & Hout_c & Hw2 & Hsess_c & Hpend_c & Husers_c & Hrooms_c & _ & _
        & Hlog_c).
  rewrite Hrun_c. session_steps.
  (* the empty selection *)
  rewrite (getUserInput_next _ _ rd3 rest) by now rewrite Hpend_c, Hpend_b.
  rewrite H3'. session_steps. cbn [String.eqb].
  destruct (printRoom_spec (set_pending rest sc))
    as (w4 & s' & Hrun_d & Hout_d & Hw4 & Hsess_d & Hpend_d & Husers_d & Hrooms_d & _ & _
        & Hlog_d).
  cbn [session world out pending set_pending] in *.
  rewrite Hrun_d.
  assert (Hhere : forall q, rooms (world s') q = rooms (world sb) q)
    by (intros q; now rewrite Hrooms_d, Hrooms_c).
  assert (Hid : GetId (rooms (world sa) (room (session sa))) = GetId old)
    by (rewrite Hsess_a, Hrooms_a; reflexivity).
  assert (Htitle_a : Title (rooms (world sa) (room (session sa))) = Title old)
    by (rewrite Hsess_a, Hrooms_a; reflexivity).
  exists w1, w2, (world sc), w4, s'.
  split; [reflexivity|]. split; [exact Hpend_d|].
  split; [now rewrite Hsess_d, Hsess_c, Hsess_b, Hsess_a|].
  split.
  { rewrite Hout_d, Hout_c, Hout_b, Hout_a.
    rewrite !Hsess_c, !Hsess_b, !Hsess_a, !Husers_c, !Husers_b, !Husers_a.
    unfold here. rewrite (Hrooms_d (room (session s))).
    rewrite <- !app_assoc. reflexivity. }
  split; [exact Hw1|].
  split; [intros q; now rewrite Hw2, Hhere|].
  split; [intros q; now rewrite Hrooms_d|].
  split; [intros q; now rewrite Hw4, Hrooms_d|].
  rewrite Hsess_a in Htitle_b, Hdesc_b, Hexits_b, Hrooms_b.
  rewrite Hrooms_a in Htitle_b, Hdesc_b, Hexits_b.
  split; [now rewrite Hhere|]. split; [now rewrite Hhere|]. split; [now rewrite Hhere|].
  split; [intros q Hq; now rewrite Hhere, Hrooms_b, Hrooms_a|].
  split; [intros q; now rewrite Husers_d, Husers_c, Husers_b, Husers_a|].
  rewrite Hlog_d, Hlog_c, Hlog_b, writes_app, Hlog_a, Hid, Htitle_a.
  f_equal. destruct (String.eqb title ""); [reflexivity|].
  destruct (String.eqb title (Title old)); reflexivity.
Qed.

End Facts.

Lemma edit_title_witness :
  pending retitling
  = [AInput (Line "1"); AInput (Line "Great Hall"); AInput (Line "")] /\
  readerTurn CleanUserInput (Line "1") = OnUserInput "1" /\
  readerTurn RawUserInput (Line "Great Hall") = OnUserInput "Great Hall" /\
  readerTurn CleanUserInput (Line "") = OnUserInput "" /\
  exists s' : State,
    processCommand noCommand 2 "edit" [] retitling = (Ret tt, s') /\
    Title (rooms (world s') 1) = "Great Hall" /\
    writes (dblog (world s'))
    = [EWriteLock "r1"; EObjectModified RoomType "r1"; EWriteUnlock "r1"].
Proof.
  assert (Hp : pending retitling
               = [AInput (Line "1"); AInput (Line "Great Hall"); AInput (Line "")])
    by reflexivity.
  assert (H1 : readerTurn CleanUserInput (Line "1") = OnUserInput "1") by reflexivity.
  assert (H2 : readerTurn RawUserInput (Line "Great Hall") = OnUserInput "Great Hall")
    by reflexivity.
  assert (H3 : readerTurn CleanUserInput (Line "") = OnUserInput "") by reflexivity.
  repeat (split; [assumption|]).
  destruct (edit_title noCommand 0 (Line "1") (Line "Great Hall") (Line "")
              "Great Hall" [] retitling Hp H1 H2 H3)
    as (w1 & w2 & w3 & w4 & s' & Hrun & _ & _ & _ & _ & _ & _ & _ & Htitle & _ & _ & _ & _
        & Hlog).
  exists s'. split; [exact Hrun|]. split; [exact Htitle | exact Hlog].
Defined.

(** The three lines the editor writes in the sample world. *)
Example edit_title_lines :
  out (snd (processCommand noCommand 2 "edit" [] retitling))
  = [OLine "[1] Title: Hall"; OLine "[1] Title: Great Hall"; OLine "r1 Great Hall"].
Proof. vm_compute. reflexivity. Qed.

End EditorSpec.
